(** * discord-webhook-proxy: rule matching, webhook fan-out, listener supervision

    A shallow embedding of the routing core of the proxy:

    - [Py]: the Python values that occur in the YAML configuration and in the
      event dictionaries, with the builtins the code applies to them
      ([bool()], [str()], [==] against a string, [int()] on a string);
    - [Json]: [json.loads], which the matcher calls on string-valued
      [event_type] fields;
    - [WebhookForwarder]: [_get_matching_rules_from_config], [handle_event],
      [_forward_to_webhook_sync] and [test_webhook_sync] of
      [webhook_forwarder.py];
    - [BotManager]: the gateway callbacks of [bot_manager.py];
    - [ListenerManager]: the process supervisor of [src/listener_manager.py];
    - [ConfigManager]: the queries of [src/config.py] on the loaded document;
    - [DiscordListener]: [initialize] of [discord_listener.py].

    Conventions.  A Python [str] is carried by its UTF-8 bytes, so equality of
    two Python strings is equality of the two Rocq strings.  Python [float]s do
    not occur in the values modelled here (no rule field and no event attribute
    of the application is a float).  The configuration is the parsed document:
    [webhook_rules], when present, is a sequence of dictionaries.  Effectful
    code leaves a trace: the requests and system calls it makes, and its log
    records at level INFO and above (debug records are dropped).  Interpreter
    resource limits (the recursion limit, the digit limit of [int()]) are not
    modelled. *)

From Stdlib Require Import ZArith String Ascii List Bool Lia.
From Stdlib Require Import DecimalString DecimalPos.
From stdpp Require Import base option list gmap strings.

#[local] Set Warnings "-register-all".
#[local] Open Scope string_scope.
#[local] Open Scope list_scope.

(** ** Characters used below *)

Definition dquote : ascii := "034"%char.
Definition squote : ascii := "039"%char.
Definition backslash : ascii := "092"%char.
Definition char_tab : ascii := "009"%char.
Definition char_lf : ascii := "010"%char.
Definition char_cr : ascii := "013"%char.

Definition str1 (c : ascii) : string := String c EmptyString.

Fixpoint string_mem (c : ascii) (s : string) : bool :=
  match s with
  | EmptyString => false
  | String d r => Ascii.eqb c d || string_mem c r
  end.

Fixpoint join (sep : string) (l : list string) : string :=
  match l with
  | [] => EmptyString
  | [x] => x
  | x :: r => x +:+ sep +:+ join sep r
  end.

Definition is_digit (c : ascii) : bool :=
  (48 <=? N_of_ascii c)%N && (N_of_ascii c <=? 57)%N.

Definition digit_val (c : ascii) : Z := Z.of_N (N_of_ascii c) - 48.

(** The value of a run of ASCII digits, most significant first. *)
Fixpoint digits_val (acc : Z) (s : string) : Z :=
  match s with
  | EmptyString => acc
  | String c r => digits_val (10 * acc + digit_val c) r
  end.

(** The longest prefix of digits, and what follows it. *)
Fixpoint span_digits (s : string) : string * string :=
  match s with
  | EmptyString => (EmptyString, EmptyString)
  | String c r =>
      if is_digit c then let '(ds, rest) := span_digits r in (String c ds, rest)
      else (EmptyString, s)
  end.

(** [drop_prefix p s] is [Some r] when [s = p ++ r]. *)
Fixpoint drop_prefix (p s : string) : option string :=
  match p, s with
  | EmptyString, _ => Some s
  | String a p', String b s' => if Ascii.eqb a b then drop_prefix p' s' else None
  | String _ _, EmptyString => None
  end.

(** ** Python values and builtins *)

Module Py.

Inductive value : Type :=
| VNone
| VBool (b : bool)
| VInt (n : Z)
| VStr (s : string)
| VList (l : list value)
| VDict (d : list (string * value)).

(** [bool(v)]: the truth value Python gives [v] in [if v] and [not v]. *)
Definition truthy (v : value) : bool :=
  match v with
  | VNone => false
  | VBool b => b
  | VInt n => negb (n =? 0)%Z
  | VStr s => negb (String.eqb s EmptyString)
  | VList l => match l with [] => false | _ => true end
  | VDict d => match d with [] => false | _ => true end
  end.

(** Truth value of an [Optional[str]]. *)
Definition truthy_str (o : option string) : bool :=
  match o with
  | None => false
  | Some s => negb (String.eqb s EmptyString)
  end.

(** [v is None] *)
Definition is_None (v : value) : bool :=
  match v with
  | VNone => true
  | _ => false
  end.

(** [v == s] for a string [s]: only an equal string compares equal. *)
Definition eq_str (v : value) (s : string) : bool :=
  match v with
  | VStr t => String.eqb t s
  | _ => false
  end.

(** [v == o] for an [Optional[str]]. *)
Definition eq_opt_str (v : value) (o : option string) : bool :=
  match o with
  | Some s => eq_str v s
  | None => is_None v
  end.

(** [s in l] for a string [s] and a list [l]. *)
Definition str_in (s : string) (l : list value) : bool :=
  existsb (fun v => eq_str v s) l.

Definition str_of_Z (n : Z) : string := NilZero.string_of_int (Z.to_int n).

Definition hex_digit (n : N) : ascii :=
  if (n <? 10)%N then ascii_of_N (48 + n) else ascii_of_N (87 + n).

(** One character of [repr] of a string delimited by [q]. *)
Definition repr_char (q c : ascii) : string :=
  if Ascii.eqb c q || Ascii.eqb c backslash then String backslash (str1 c)
  else if Ascii.eqb c char_tab then String backslash "t"
  else if Ascii.eqb c char_lf then String backslash "n"
  else if Ascii.eqb c char_cr then String backslash "r"
  else if (N_of_ascii c <? 32)%N || (N_of_ascii c =? 127)%N then
    String backslash
      (String "x" (String (hex_digit (N_of_ascii c / 16))
                          (str1 (hex_digit (N_of_ascii c mod 16)))))
  else str1 c.

Fixpoint repr_chars (q : ascii) (s : string) : string :=
  match s with
  | EmptyString => EmptyString
  | String c r => repr_char q c +:+ repr_chars q r
  end.

(** [repr] of a string: single quotes, unless the text has a single quote and
    no double quote.  Bytes of non-ASCII characters are copied, which is what
    Python does for printable characters. *)
Definition repr_str (s : string) : string :=
  let q := if string_mem squote s && negb (string_mem dquote s)
           then dquote else squote in
  String q (repr_chars q s) +:+ str1 q.

Fixpoint repr (v : value) : string :=
  match v with
  | VNone => "None"
  | VBool true => "True"
  | VBool false => "False"
  | VInt n => str_of_Z n
  | VStr s => repr_str s
  | VList l => "[" +:+ join ", " (map repr l) +:+ "]"
  | VDict d =>
      "{" +:+ join ", " (map (fun kv => repr_str (fst kv) +:+ ": " +:+ repr (snd kv)) d)
          +:+ "}"
  end.

(** [str(v)] *)
Definition str (v : value) : string :=
  match v with
  | VStr s => s
  | _ => repr v
  end.

(** [str(o)] for an [Optional[str]]. *)
Definition str_opt (o : option string) : string :=
  match o with
  | Some s => s
  | None => "None"
  end.

Definition is_ws (c : ascii) : bool :=
  Ascii.eqb c " " || ((9 <=? N_of_ascii c)%N && (N_of_ascii c <=? 13)%N)
  || ((28 <=? N_of_ascii c)%N && (N_of_ascii c <=? 31)%N).

Fixpoint lstrip (s : string) : string :=
  match s with
  | EmptyString => EmptyString
  | String c r => if is_ws c then lstrip r else s
  end.

Fixpoint rstrip (s : string) : string :=
  match s with
  | EmptyString => EmptyString
  | String c r =>
      match rstrip r with
      | EmptyString => if is_ws c then EmptyString else str1 c
      | r' => String c r'
      end
  end.

(** [s.strip()], for the ASCII white space. *)
Definition strip (s : string) : string := rstrip (lstrip s).

(** Digits with single underscores between them: [1_000]. *)
Fixpoint int_digits (after_digit : bool) (acc : Z) (s : string) : option Z :=
  match s with
  | EmptyString => if after_digit then Some acc else None
  | String c r =>
      if is_digit c then int_digits true (10 * acc + digit_val c) r
      else if Ascii.eqb c "_" && after_digit then
        match r with
        | EmptyString => None
        | String d _ => if is_digit d then int_digits false acc r else None
        end
      else None
  end.

(** [int(s)] in base 10, [None] for [ValueError]: optional white space, an
    optional sign, ASCII digits. *)
Definition int_of_str (s : string) : option Z :=
  match strip s with
  | String "-" r => Z.opp <$> int_digits false 0 r
  | String "+" r => int_digits false 0 r
  | r => int_digits false 0 r
  end.

End Py.

(** ** [json.loads]

    The decoder of the standard library, on the text of a Python string:
    white space, [null]/[true]/[false], numbers, strings with their escapes,
    arrays, objects, and the constants [NaN], [Infinity], [-Infinity] that
    Python accepts.  [None] stands for the exception the decoder raises. *)

Module Json.

Inductive json : Type :=
| JNull
| JBool (b : bool)
| JInt (n : Z)
| JFloat (literal : string)
| JStr (s : string)
| JArr (l : list json)
| JObj (m : list (string * json)).

Definition is_ws (c : ascii) : bool :=
  Ascii.eqb c " " || Ascii.eqb c char_tab || Ascii.eqb c char_lf
  || Ascii.eqb c char_cr.

Fixpoint skip_ws (s : string) : string :=
  match s with
  | EmptyString => EmptyString
  | String c r => if is_ws c then skip_ws r else s
  end.

Definition hex_val (c : ascii) : option N :=
  let n := N_of_ascii c in
  if (48 <=? n)%N && (n <=? 57)%N then Some (n - 48)%N
  else if (97 <=? n)%N && (n <=? 102)%N then Some (n - 87)%N
  else if (65 <=? n)%N && (n <=? 70)%N then Some (n - 55)%N
  else None.

Definition hex4 (a b c d : ascii) : option N :=
  match hex_val a, hex_val b, hex_val c, hex_val d with
  | Some x, Some y, Some z, Some w => Some (((x * 16 + y) * 16 + z) * 16 + w)%N
  | _, _, _, _ => None
  end.

(** [chr(cp)] as UTF-8 bytes (a lone surrogate takes the three-byte form). *)
Definition utf8 (cp : N) : string :=
  if (cp <? 128)%N then str1 (ascii_of_N cp)
  else if (cp <? 2048)%N then
    String (ascii_of_N (192 + cp / 64)) (str1 (ascii_of_N (128 + cp mod 64)))
  else if (cp <? 65536)%N then
    String (ascii_of_N (224 + cp / 4096))
      (String (ascii_of_N (128 + (cp / 64) mod 64))
         (str1 (ascii_of_N (128 + cp mod 64))))
  else
    String (ascii_of_N (240 + cp / 262144))
      (String (ascii_of_N (128 + (cp / 4096) mod 64))
         (String (ascii_of_N (128 + (cp / 64) mod 64))
            (str1 (ascii_of_N (128 + cp mod 64))))).

(** The character a one-letter escape stands for. *)
Definition unescape (e : ascii) : option ascii :=
  if Ascii.eqb e dquote then Some dquote
  else if Ascii.eqb e backslash then Some backslash
  else if Ascii.eqb e "/" then Some "/"%char
  else if Ascii.eqb e "b" then Some "008"%char
  else if Ascii.eqb e "f" then Some "012"%char
  else if Ascii.eqb e "n" then Some char_lf
  else if Ascii.eqb e "r" then Some char_cr
  else if Ascii.eqb e "t" then Some char_tab
  else None.

(** [scanstring]: the text after an opening quote, up to the closing one.
    Control characters below U+0020 are refused (strict mode). *)
Fixpoint scanstring (s : string) : option (string * string) :=
  match s with
  | EmptyString => None
  | String c r =>
      if Ascii.eqb c dquote then Some (EmptyString, r)
      else if (N_of_ascii c <? 32)%N then None
      else if Ascii.eqb c backslash then
        match r with
        | EmptyString => None
        | String e r1 =>
            if Ascii.eqb e "u" then
              match r1 with
              | String h1 (String h2 (String h3 (String h4 r2))) =>
                  match hex4 h1 h2 h3 h4 with
                  | None => None
                  | Some hi =>
                      let single :=
                        match scanstring r2 with
                        | Some (t, rest) => Some (utf8 hi +:+ t, rest)
                        | None => None
                        end in
                      if (55296 <=? hi)%N && (hi <=? 56319)%N then
                        match r2 with
                        | String b (String u (String g1 (String g2
                            (String g3 (String g4 r3))))) =>
                            if Ascii.eqb b backslash && Ascii.eqb u "u" then
                              match hex4 g1 g2 g3 g4 with
                              | None => None
                              | Some lo =>
                                  if (56320 <=? lo)%N && (lo <=? 57343)%N then
                                    match scanstring r3 with
                                    | Some (t, rest) =>
                                        Some (utf8 (65536 + (hi - 55296) * 1024
                                                    + (lo - 56320)) +:+ t, rest)
                                    | None => None
                                    end
                                  else single
                              end
                            else single
                        | _ => single
                        end
                      else single
                  end
              | _ => None
              end
            else
              match unescape e with
              | None => None
              | Some ch =>
                  match scanstring r1 with
                  | Some (t, rest) => Some (String ch t, rest)
                  | None => None
                  end
              end
        end
      else
        match scanstring r with
        | Some (t, rest) => Some (String c t, rest)
        | None => None
        end
  end.

(** The number at the head of [s], by the decoder's pattern: an optional
    minus sign, then a single 0 or a digit run that starts with 1-9; an
    optional fraction (a dot and at least one digit); an optional exponent
    (e or E, an optional sign, at least one digit).  The result is an integer
    when there is neither fraction nor exponent, a float otherwise. *)
Definition scan_int_part (s : string) : option (string * string) :=
  match s with
  | EmptyString => None
  | String c r =>
      if Ascii.eqb c "0" then Some ("0", r)
      else if is_digit c then Some (span_digits s)
      else None
  end.

Definition scan_frac (s : string) : string * string :=
  match s with
  | String c r =>
      if Ascii.eqb c "." then
        match span_digits r with
        | (EmptyString, _) => (EmptyString, s)
        | (ds, rest) => (String c ds, rest)
        end
      else (EmptyString, s)
  | EmptyString => (EmptyString, s)
  end.

Definition scan_exp (s : string) : string * string :=
  match s with
  | String e r =>
      if Ascii.eqb e "e" || Ascii.eqb e "E" then
        let '(sign, r1) :=
          match r with
          | String g r' =>
              if Ascii.eqb g "-" || Ascii.eqb g "+" then (str1 g, r')
              else (EmptyString, r)
          | EmptyString => (EmptyString, r)
          end in
        match span_digits r1 with
        | (EmptyString, _) => (EmptyString, s)
        | (ds, rest) => (String e (sign +:+ ds), rest)
        end
      else (EmptyString, s)
  | EmptyString => (EmptyString, s)
  end.

Definition scan_number (s : string) : option (json * string) :=
  let '(neg, s1) :=
    match s with
    | String c r => if Ascii.eqb c "-" then (true, r) else (false, s)
    | EmptyString => (false, s)
    end in
  match scan_int_part s1 with
  | None => None
  | Some (ip, r1) =>
      let '(frac, r2) := scan_frac r1 in
      let '(ex, r3) := scan_exp r2 in
      match frac, ex with
      | EmptyString, EmptyString =>
          Some (JInt (if neg then - digits_val 0 ip else digits_val 0 ip), r3)
      | _, _ =>
          Some (JFloat ((if neg then "-" else EmptyString) +:+ ip +:+ frac +:+ ex), r3)
      end
  end.

(** The scalars that are not strings. *)
Definition scan_atom (s : string) : option (json * string) :=
  match drop_prefix "null" s with
  | Some r => Some (JNull, r)
  | None =>
  match drop_prefix "true" s with
  | Some r => Some (JBool true, r)
  | None =>
  match drop_prefix "false" s with
  | Some r => Some (JBool false, r)
  | None =>
  match scan_number s with
  | Some res => Some res
  | None =>
  match drop_prefix "NaN" s with
  | Some r => Some (JFloat "NaN", r)
  | None =>
  match drop_prefix "Infinity" s with
  | Some r => Some (JFloat "Infinity", r)
  | None =>
  match drop_prefix "-Infinity" s with
  | Some r => Some (JFloat "-Infinity", r)
  | None => None
  end end end end end end end.

Inductive outcome (A : Type) : Type :=
| Parsed (a : A) (rest : string)
| Malformed
| OutOfFuel.
Arguments Parsed {A} a rest.
Arguments Malformed {A}.
Arguments OutOfFuel {A}.

(** [scan_once] with the array and object loops.  [acc] holds the items read
    so far, last first.  An object keeps its pairs in the order read. *)
Fixpoint scan_once (fuel : nat) (s : string) : outcome json :=
  match fuel with
  | O => OutOfFuel
  | S fuel' =>
      match s with
      | EmptyString => Malformed
      | String c r =>
          if Ascii.eqb c dquote then
            match scanstring r with
            | Some (t, rest) => Parsed (JStr t) rest
            | None => Malformed
            end
          else if Ascii.eqb c "[" then
            match skip_ws r with
            | EmptyString => Malformed
            | String d r1 as s1 =>
                if Ascii.eqb d "]" then Parsed (JArr []) r1
                else array_items fuel' s1 []
            end
          else if Ascii.eqb c "{" then
            match skip_ws r with
            | EmptyString => Malformed
            | String d r1 =>
                if Ascii.eqb d "}" then Parsed (JObj []) r1
                else if Ascii.eqb d dquote then object_items fuel' r1 []
                else Malformed
            end
          else
            match scan_atom s with
            | Some (v, rest) => Parsed v rest
            | None => Malformed
            end
      end
  end

with array_items (fuel : nat) (s : string) (acc : list json) : outcome json :=
  match fuel with
  | O => OutOfFuel
  | S fuel' =>
      match scan_once fuel' s with
      | Parsed v rest =>
          match skip_ws rest with
          | EmptyString => Malformed
          | String d r1 =>
              if Ascii.eqb d "]" then Parsed (JArr (rev (v :: acc))) r1
              else if Ascii.eqb d "," then array_items fuel' (skip_ws r1) (v :: acc)
              else Malformed
          end
      | Malformed => Malformed
      | OutOfFuel => OutOfFuel
      end
  end

with object_items (fuel : nat) (s : string) (acc : list (string * json))
  : outcome json :=
  match fuel with
  | O => OutOfFuel
  | S fuel' =>
      match scanstring s with
      | None => Malformed
      | Some (key, rest) =>
          match skip_ws rest with
          | EmptyString => Malformed
          | String d r1 =>
              if Ascii.eqb d ":" then
                match scan_once fuel' (skip_ws r1) with
                | Parsed v rest1 =>
                    match skip_ws rest1 with
                    | EmptyString => Malformed
                    | String e r2 =>
                        if Ascii.eqb e "}" then Parsed (JObj (rev ((key, v) :: acc))) r2
                        else if Ascii.eqb e "," then
                          match skip_ws r2 with
                          | EmptyString => Malformed
                          | String q r3 =>
                              if Ascii.eqb q dquote
                              then object_items fuel' r3 ((key, v) :: acc)
                              else Malformed
                          end
                        else Malformed
                    end
                | Malformed => Malformed
                | OutOfFuel => OutOfFuel
                end
              else Malformed
          end
      end
  end.

(** Two units of fuel per character always suffice (see [loads_fuel]). *)
Definition fuel_for (s : string) : nat := 2 * String.length s + 2.

(** [json.loads(s)]: one value between optional white space, nothing after. *)
Definition loads (s : string) : option json :=
  let s0 := skip_ws s in
  match scan_once (fuel_for s0) s0 with
  | Parsed v rest =>
      match skip_ws rest with
      | EmptyString => Some v
      | String _ _ => None
      end
  | Malformed => None
  | OutOfFuel => None
  end.

(** [s in l] for a string [s] and a decoded list [l]. *)
Definition str_in (s : string) (l : list json) : bool :=
  existsb (fun j => match j with JStr t => String.eqb t s | _ => false end) l.

End Json.

(** ** Effects

    Code that talks to the network or to the operating system is a function
    of a state: it completes with a value or with an exception, leaves a
    trace of observable events, and yields the next state.  An exception
    keeps the state and the trace reached when it was raised. *)

Inductive exn : Type :=
| KeyError (key : string)
| TypeError
| ValueError
| AttributeError
| OverflowError
| ProcessLookupError
| PermissionError
| OSError
| TransportError.

(** [isinstance(e, OSError)] *)
Definition is_OSError (e : exn) : bool :=
  match e with
  | ProcessLookupError | PermissionError | OSError => true
  | _ => false
  end.

Inductive completion (A : Type) : Type :=
| Return (a : A)
| Raise (e : exn).
Arguments Return {A} a.
Arguments Raise {A} e.

Inductive level : Type := INFO | WARNING | ERROR.

Module Eff.
Section Eff.
Context {S E : Type}.

Definition M (A : Type) : Type := S -> completion A * list E * S.

Definition ret {A} (a : A) : M A := fun s => (Return a, [], s).

Definition raise {A} (e : exn) : M A := fun s => (Raise e, [], s).

Definition bind {A B} (c : M A) (k : A -> M B) : M B :=
  fun s =>
    match c s with
    | (Return a, tr, s') => let '(r, tr', s'') := k a s' in (r, tr ++ tr', s'')
    | (Raise e, tr, s') => (Raise e, tr, s')
    end.

(** [try: c  except Exception as e: h e] *)
Definition try_except {A} (c : M A) (h : exn -> M A) : M A :=
  fun s =>
    match c s with
    | (Raise e, tr, s') => let '(r, tr', s'') := h e s' in (r, tr ++ tr', s'')
    | done => done
    end.

Definition emit (e : E) : M unit := fun s => (Return tt, [e], s).

Definition get : M S := fun s => (Return s, [], s).

Definition put (s : S) : M unit := fun _ => (Return tt, [], s).

(** [for x in l: body x] *)
Fixpoint for_each {A} (l : list A) (body : A -> M unit) : M unit :=
  match l with
  | [] => ret tt
  | x :: rest => bind (body x) (fun _ => for_each rest body)
  end.

Definition result_of {A} (r : completion A * list E * S) : completion A := r.1.1.
Definition trace_of {A} (r : completion A * list E * S) : list E := r.1.2.
Definition state_of {A} (r : completion A * list E * S) : S := r.2.
End Eff.
End Eff.

#[global] Instance eff_ret {S E} : MRet (@Eff.M S E) := @Eff.ret S E.
#[global] Instance eff_bind {S E} : MBind (@Eff.M S E) :=
  fun A B k c => Eff.bind c k.

(** ** [webhook_forwarder.py] *)

Module WebhookForwarder.
Import Py.

(** A rule of [webhook_rules] and the attributes of an event are dictionaries
    with string keys. *)
Abbreviation rule := (gmap string value).
Abbreviation attrs := (gmap string value).

(** The parsed configuration document: its [bot] section and its
    [webhook_rules] sequence, each possibly absent. *)
Record config : Type := Config {
  cfg_bot : option value;
  cfg_webhook_rules : option (list rule);
}.

(** [bool(config)]: a dictionary is true when it has an entry. *)
Definition config_truthy (c : config) : bool :=
  match cfg_bot c, cfg_webhook_rules c with
  | None, None => false
  | _, _ => true
  end.

(** [rule.get(key)] and [rule.get(key, dflt)] *)
Definition dict_get (d : gmap string value) (key : string) : value :=
  default VNone (d !! key).
Definition dict_get_default (d : gmap string value) (key : string) (dflt : value) : value :=
  default dflt (d !! key).

(** The test [not rule.get("enabled", True)] skips a rule when it holds. *)
Definition rule_enabled (r : rule) : bool :=
  truthy (dict_get_default r "enabled" (VBool true)).

(** Event-type match of one rule (lines 248-268). *)
Definition event_match (r : rule) (event_type : string) : bool :=
  match dict_get r "event_type" with
  | VNone => true
  | VList l => str_in event_type l
  | VStr s =>
      match Json.loads s with
      | Some (Json.JArr event_types) => Json.str_in event_type event_types
      | Some _ => String.eqb s event_type
      | None => String.eqb s event_type
      end
  | _ => false
  end.

(** The event carries a scope: [scope_type and scope_id]. *)
Definition has_scope (scope_type scope_id : option string) : bool :=
  truthy_str scope_type && truthy_str scope_id.

(** Scope match of one rule (lines 270-278). *)
Definition scope_match (r : rule) (scope_type scope_id : option string) : bool :=
  let rule_scope_type := dict_get r "scope_type" in
  let rule_scope_id := dict_get r "scope_id" in
  if has_scope scope_type scope_id && negb (is_None rule_scope_type)
  then eq_opt_str rule_scope_type scope_type
       && String.eqb (str rule_scope_id) (str_opt scope_id)
  else true.

(** The loop over the rules, appending the matching ones. *)
Fixpoint matching_rules (rules : list rule) (event_type : string)
    (scope_type scope_id : option string) : list rule :=
  match rules with
  | [] => []
  | r :: rest =>
      if negb (rule_enabled r) then
        matching_rules rest event_type scope_type scope_id
      else if event_match r event_type && scope_match r scope_type scope_id then
        r :: matching_rules rest event_type scope_type scope_id
      else matching_rules rest event_type scope_type scope_id
  end.

Definition _get_matching_rules_from_config (c : config) (event_type : string)
    (scope_type scope_id : option string) : list rule :=
  if negb (config_truthy c) then []
  else matching_rules (default [] (cfg_webhook_rules c)) event_type scope_type scope_id.

(** The scope [handle_event] derives from the attributes (lines 48-58). *)
Definition derive_scope (data : attrs) : option string * option string :=
  let from_channel :=
    match data !! "channel_id" with
    | Some c => (Some "channel", Some (str c))
    | None => (None, None)
    end in
  match data !! "guild_id" with
  | Some g => if truthy g then (Some "guild", Some (str g)) else from_channel
  | None => from_channel
  end.

(** *** Delivery *)

(** An [httpx.Client] with its two timeouts, in seconds. *)
Record client : Type := Client { timeout : Z; connect_timeout : Z }.

Definition session_client : client := Client 30 10.
Definition test_client : client := Client 10 5.

(** What the environment does with a POST: a response with its status code,
    or an exception from the client (network error, timeout, a body that does
    not serialise); and the UTC clock. *)
Class Env (W : Type) : Type := {
  http_post : client -> string -> gmap string value -> W -> completion Z * W;
  utc_now_iso : W -> string * W;
}.

Inductive message : Type :=
| MsgHandling (event_type : string)
| MsgScope (scope_type scope_id : option string)
| MsgFound (n : nat)
| MsgForwardingTo (rule_name : value)
| MsgSessionNotInitialized
| MsgForwarded (event_type : string) (rule_name : value)
| MsgStatus (status : Z) (rule_name : value)
| MsgForwardError (rule_name : value) (e : exn)
| MsgHandleError (event_type : string) (e : exn)
| MsgTestError (e : exn).

(** Observable events: the requests made, with what came back, and the log
    records at level INFO and above. *)
Inductive event : Type :=
| Post (c : client) (url : string) (body : gmap string value) (res : completion Z)
| Log (lvl : level) (msg : message).

Record forwarder : Type := Forwarder {
  fw_config : config;
  session : option client;
}.

(** [WebhookForwarder(config)]: an empty configuration is refused; the
    session is opened later, by [start]. *)
Definition __init__ (c : config) : completion forwarder :=
  if negb (config_truthy c) then Raise ValueError
  else Return (Forwarder c None).

(** [start] opens the session. *)
Definition start (fw : forwarder) : forwarder :=
  Forwarder (fw_config fw) (Some session_client).

(** [{**base, **upd}]: the entries of [upd] replace those of [base]. *)
Definition dict_merge (base upd : gmap string value) : gmap string value :=
  upd ∪ base.

Definition envelope (event_type : string) (rule_name : value) (now : string)
  : gmap string value :=
  <["event_type" := VStr event_type]>
    (<["rule_name" := rule_name]> (<["timestamp" := VStr now]> ∅)).

(** The body of a delivery (lines 104-109). *)
Definition payload (event_type : string) (rule_name : value) (now : string)
    (data : attrs) : gmap string value :=
  dict_merge (envelope event_type rule_name now) data.

(** [status in [200, 204]] *)
Definition delivery_success (status : Z) : bool :=
  (status =? 200)%Z || (status =? 204)%Z.

Section Delivery.
Context {W : Type} `{!Env W}.

#[local] Abbreviation M := (@Eff.M W event).

Definition log (lvl : level) (msg : message) : M unit := Eff.emit (Log lvl msg).

Definition now : M string :=
  fun w => let '(t, w') := utc_now_iso w in (Return t, [], w').

(** [session.post(url, json=body)] *)
Definition post (c : client) (url : string) (body : gmap string value) : M Z :=
  fun w => let '(res, w') := http_post c url body w in (res, [Post c url body res], w').

(** [d[key]] *)
Definition getitem (d : gmap string value) (key : string) : M value :=
  match d !! key with
  | Some v => Eff.ret v
  | None => Eff.raise (KeyError key)
  end.

(** The URL as the client takes it: text.  Any other value fails in
    [webhook_url[:50]] or in the client before a request is made. *)
Definition url_text (webhook_url : value) : M string :=
  match webhook_url with
  | VStr u => Eff.ret u
  | _ => Eff.raise TypeError
  end.

Definition _forward_to_webhook_sync (fw : forwarder) (webhook_url rule_name : value)
    (event_type : string) (data : attrs) : M unit :=
  match session fw with
  | None => log ERROR MsgSessionNotInitialized
  | Some c =>
      Eff.try_except
        (t ← now;
         let body := payload event_type rule_name t data in
         url ← url_text webhook_url;
         status ← post c url body;
         if delivery_success status
         then log INFO (MsgForwarded event_type rule_name)
         else log WARNING (MsgStatus status rule_name))
        (fun e => log ERROR (MsgForwardError rule_name e))
  end.

(** The rules [handle_event] fans out to. *)
Definition matched_rules (fw : forwarder) (event_type : string) (data : attrs)
  : list rule :=
  _get_matching_rules_from_config (fw_config fw) event_type
    (derive_scope data).1 (derive_scope data).2.

(** One turn of the fan-out loop (lines 79-89). *)
Definition forward_rule (fw : forwarder) (event_type : string) (data : attrs)
    (rule : rule) : M unit :=
  name ← getitem rule "name";
  log INFO (MsgForwardingTo name);;
  webhook_url ← getitem rule "webhook_url";
  rule_name ← getitem rule "name";
  _forward_to_webhook_sync fw webhook_url rule_name event_type data.

Definition handle_event_body (fw : forwarder) (event_type : string) (data : attrs)
  : M unit :=
  log INFO (MsgHandling event_type);;
  log INFO (MsgScope (derive_scope data).1 (derive_scope data).2);;
  let rules := matched_rules fw event_type data in
  log INFO (MsgFound (length rules));;
  Eff.for_each rules (forward_rule fw event_type data).

Definition handle_event (fw : forwarder) (event_type : string) (data : attrs)
  : M unit :=
  Eff.try_except (handle_event_body fw event_type data)
    (fun e => log ERROR (MsgHandleError event_type e)).

Definition test_payload (t : string) : gmap string value :=
  <["content" := VStr "Test message from Discord Webhook Proxy"]>
    (<["embeds" := VList [VDict
        [("title", VStr "Webhook Test");
         ("description",
           VStr "This is a test message to verify the webhook is working correctly.");
         ("color", VInt 65280);
         ("timestamp", VStr t)]]]> ∅).

Definition test_webhook_sync (webhook_url : string) : M bool :=
  Eff.try_except
    (t ← now;
     status ← post test_client webhook_url (test_payload t);
     mret (status =? 204)%Z)
    (fun e => log ERROR (MsgTestError e);; mret false).
End Delivery.

(** *** Reading a trace *)

(** The requests of a trace, in order: client, URL, body, what came back. *)
Definition posts (tr : list event)
  : list (client * string * gmap string value * completion Z) :=
  omap (fun e => match e with
                 | Post c url body res => Some (c, url, body, res)
                 | Log _ _ => None
                 end) tr.

(** The delivery attempts of a trace: which client posted to which URL. *)
Definition requests (tr : list event) : list (client * string) :=
  (fun p => (p.1.1.1, p.1.1.2)) <$> posts tr.

(** The record [_forward_to_webhook_sync] logs for what came back. *)
Definition outcome_record (event_type : string) (rule_name : value)
    (res : completion Z) : event :=
  match res with
  | Return status =>
      if delivery_success status then Log INFO (MsgForwarded event_type rule_name)
      else Log WARNING (MsgStatus status rule_name)
  | Raise e => Log ERROR (MsgForwardError rule_name e)
  end.

(** The attempt one target gives rise to: none without a session, none for
    a URL that is not text. *)
Definition target_request (session : option client) (webhook_url : value)
  : list (client * string) :=
  match session, webhook_url with
  | Some c, VStr url => [(c, url)]
  | _, _ => []
  end.

(** The attempts the fan-out loop makes over the matched rules: one per
    rule, until a rule lacks [name] or [webhook_url] (the [KeyError] ends the
    loop).  No answer of the network appears in this definition. *)
Fixpoint planned_requests (session : option client) (rules : list rule)
  : list (client * string) :=
  match rules with
  | [] => []
  | r :: rest =>
      match r !! "name", r !! "webhook_url" with
      | Some _, Some url =>
          target_request session url ++ planned_requests session rest
      | _, _ => []
      end
  end.

End WebhookForwarder.

(** ** [bot_manager.py]: the gateway callbacks *)

Module BotManager.
Import Py.

Record user : Type := User {
  user_text : string;          (* str(user) *)
  user_id : Z;
  user_bot : bool;
}.

Record guild : Type := Guild {
  guild_text : string;         (* str(guild) *)
  guild_id : Z;
}.

(** What a channel carries when it is a [discord.Thread]. *)
Record thread : Type := Thread {
  thread_name : string;
  thread_parent : option string;   (* str(channel.parent), when there is one *)
  thread_parent_id : Z;
}.

Record channel : Type := Channel {
  channel_text : string;       (* str(channel) *)
  channel_id : Z;
  channel_thread : option thread;
}.

Record message : Type := Message {
  message_id : Z;
  content : string;
  author : user;
  message_channel : channel;
  message_guild : option guild;
  created_at : string;         (* created_at.isoformat() *)
}.

Record member : Type := Member {
  member_text : string;
  member_id : Z;
  member_guild : guild;
  joined_at : option string;   (* joined_at.isoformat(), when known *)
}.

Record reaction : Type := Reaction {
  emoji : string;              (* str(reaction.emoji) *)
  reaction_message : message;
}.

Definition opt_value {A} (f : A -> value) (o : option A) : value :=
  match o with
  | Some a => f a
  | None => VNone
  end.

Definition _build_message_data (m : message) : gmap string value :=
  let ch := message_channel m in
  let th := channel_thread ch in
  list_to_map
    [("content", VStr (content m));
     ("author", VStr (user_text (author m)));
     ("author_id", VInt (user_id (author m)));
     ("channel", VStr (channel_text ch));
     ("channel_id", VInt (channel_id ch));
     ("guild", opt_value (fun g => VStr (guild_text g)) (message_guild m));
     ("guild_id", opt_value (fun g => VInt (guild_id g)) (message_guild m));
     ("timestamp", VStr (created_at m));
     ("is_thread", VBool (match th with Some _ => true | None => false end));
     ("thread_id", opt_value (fun _ => VInt (channel_id ch)) th);
     ("thread_name", opt_value (fun t => VStr (thread_name t)) th);
     ("parent_channel",
       opt_value (fun t => opt_value VStr (thread_parent t)) th);
     ("parent_channel_id", opt_value (fun t => VInt (thread_parent_id t)) th)].

Definition _build_member_data (m : member) (include_joined_at : bool)
  : gmap string value :=
  let data : gmap string value :=
    list_to_map
      [("member", VStr (member_text m));
       ("member_id", VInt (member_id m));
       ("guild", VStr (guild_text (member_guild m)));
       ("guild_id", VInt (guild_id (member_guild m)))] in
  if include_joined_at
  then <["joined_at" := opt_value VStr (joined_at m)]> data
  else data.

Definition _build_reaction_data (r : reaction) (u : user) : gmap string value :=
  let m := reaction_message r in
  list_to_map
    [("emoji", VStr (emoji r));
     ("user", VStr (user_text u));
     ("user_id", VInt (user_id u));
     ("message_id", VInt (message_id m));
     ("channel", VStr (channel_text (message_channel m)));
     ("channel_id", VInt (channel_id (message_channel m)));
     ("guild", opt_value (fun g => VStr (guild_text g)) (message_guild m));
     ("guild_id", opt_value (fun g => VInt (guild_id g)) (message_guild m))].

Definition _build_channel_data (c : channel) (g : guild) : gmap string value :=
  list_to_map
    [("channel", VStr (channel_text c));
     ("channel_id", VInt (channel_id c));
     ("guild", VStr (guild_text g));
     ("guild_id", VInt (guild_id g))].

Section Callbacks.
Context {S E : Type}.

(** How the error record of a callback shows in the trace. *)
Variable error_record : string -> exn -> E.

#[local] Abbreviation M := (@Eff.M S E).

(** The registered [event_handler(event_type=..., data=...)]. *)
Definition handler : Type := string -> gmap string value -> M unit.

(** [try: await self.event_handler(...)  except Exception as e: logger.error] *)
Definition dispatch (h : handler) (event_type : string) (data : gmap string value)
  : M unit :=
  Eff.try_except (h event_type data)
    (fun e => Eff.emit (error_record event_type e)).

Definition on_message (event_handler : option handler) (m : message) : M unit :=
  match event_handler with
  | Some h =>
      if negb (user_bot (author m))
      then dispatch h "message" (_build_message_data m)
      else mret tt
  | None => mret tt
  end.

Definition on_member_join (event_handler : option handler) (m : member) : M unit :=
  match event_handler with
  | Some h => dispatch h "member_join" (_build_member_data m true)
  | None => mret tt
  end.

Definition on_member_remove (event_handler : option handler) (m : member) : M unit :=
  match event_handler with
  | Some h => dispatch h "member_remove" (_build_member_data m false)
  | None => mret tt
  end.

Definition on_reaction_add (event_handler : option handler) (r : reaction) (u : user)
  : M unit :=
  match event_handler with
  | Some h =>
      if negb (user_bot u)
      then dispatch h "reaction_add" (_build_reaction_data r u)
      else mret tt
  | None => mret tt
  end.

Definition on_guild_channel_create (event_handler : option handler)
    (c : channel) (g : guild) : M unit :=
  match event_handler with
  | Some h => dispatch h "channel_create" (_build_channel_data c g)
  | None => mret tt
  end.

Definition on_guild_channel_delete (event_handler : option handler)
    (c : channel) (g : guild) : M unit :=
  match event_handler with
  | Some h => dispatch h "channel_delete" (_build_channel_data c g)
  | None => mret tt
  end.
End Callbacks.

End BotManager.

(** ** [src/listener_manager.py]: the listener process and its PID file *)

Module ListenerManager.

Inductive signal : Type := SIG0 | SIGTERM | SIGKILL.

(** The operating system, as the manager uses it.  [W] is the state of the
    machine; every call may change it. *)
Class OS (W : Type) : Type := {
  os_name_nt : bool;                                  (* os.name == "nt" *)
  proc_entry_exists : Z -> W -> bool;                 (* Path("/proc/<pid>").exists() *)
  os_kill : Z -> signal -> W -> completion unit * W;
  os_getpgid : Z -> W -> completion Z;
  os_killpg : Z -> signal -> W -> completion unit * W;
  popen : W -> completion Z * W;                      (* subprocess.Popen: the child's pid *)
  popen_poll : Z -> W -> option Z * W;                (* Popen.poll(): the return code *)
  time_sleep : Z -> W -> W;                           (* milliseconds *)
  script_exists : W -> bool;                          (* listener_script.exists() *)
  (* open(pid_file, "w") and f.write(text), on a file that is now [old]:
     [None] when they succeed; otherwise the exception raised and the file
     as the failed attempt leaves it (untouched, emptied, ...) *)
  pid_write_fault : string -> option string -> W -> option (exn * option string);
  (* pid_file.exists() and pid_file.unlink(): the exception raised, if any;
     the file is then left in place *)
  pid_unlink_fault : W -> option exn;
}.

(** The manager ([self.process], by the pid of the child), the PID file
    ([None]: no file; otherwise its text) and the machine.  Opening and
    reading the PID file are taken to succeed; writing and removing it may
    fail, as the machine decides ([pid_write_fault], [pid_unlink_fault]). *)
Record state (W : Type) : Type := State {
  process : option Z;
  pid_file : option string;
  machine : W;
}.
Arguments State {W} process pid_file machine.
Arguments process {W} s.
Arguments pid_file {W} s.
Arguments machine {W} s.

Inductive message : Type :=
| MsgCleaningUp (pid : Z)
| MsgAlreadyRunning
| MsgScriptNotFound
| MsgStarting
| MsgStarted (pid : Z)
| MsgFailedToStart
| MsgStartError (e : exn)
| MsgNotRunning
| MsgNoPid
| MsgStopping (pid : Z)
| MsgAlreadyTerminated
| MsgStopped
| MsgForcingKill
| MsgStopError (e : exn)
| MsgRestarting
| MsgLoadPidError (e : exn)
| MsgSavePidError (e : exn)
| MsgRemovePidError (e : exn).

(** Observable events: processes launched, signals sent (to a process or
    to a process group), log records at level INFO and above. *)
Inductive event : Type :=
| Spawn (res : completion Z)
| Kill (pid : Z) (sig : signal) (res : completion unit)
| KillGroup (pgid : Z) (sig : signal) (res : completion unit)
| Log (lvl : level) (msg : message).

Section Manager.
Context {W : Type} `{!OS W}.

#[local] Abbreviation M := (@Eff.M (state W) event).

Definition log (lvl : level) (msg : message) : M unit := Eff.emit (Log lvl msg).

Definition set_process (p : option Z) : M unit :=
  fun st => (Return tt, [], State p (pid_file st) (machine st)).

Definition set_pid_file (f : option string) : M unit :=
  fun st => (Return tt, [], State (process st) f (machine st)).

(** Run a call of the operating system on the machine. *)
Definition sys {A} (call : W -> completion A * W) : M A :=
  fun st =>
    let '(r, w) := call (machine st) in
    (r, [], State (process st) (pid_file st) w).

Definition kill (pid : Z) (sig : signal) : M unit :=
  fun st =>
    let '(r, w) := os_kill pid sig (machine st) in
    (r, [Kill pid sig r], State (process st) (pid_file st) w).

Definition getpgid (pid : Z) : M Z :=
  sys (fun w => (os_getpgid pid w, w)).

Definition killpg (pgid : Z) (sig : signal) : M unit :=
  fun st =>
    let '(r, w) := os_killpg pgid sig (machine st) in
    (r, [KillGroup pgid sig r], State (process st) (pid_file st) w).

Definition spawn : M Z :=
  fun st =>
    let '(r, w) := popen (machine st) in
    (r, [Spawn r], State (process st) (pid_file st) w).

Definition poll (pid : Z) : M (option Z) :=
  sys (fun w => let '(code, w') := popen_poll pid w in (Return code, w')).

Definition sleep (ms : Z) : M unit :=
  sys (fun w => (Return tt, time_sleep ms w)).

(** [int(pid_str)], which raises [ValueError] on a text that is not a
    number. *)
Definition parse_pid (pid_str : string) : M Z :=
  match Py.int_of_str pid_str with
  | Some pid => mret pid
  | None => Eff.raise ValueError
  end.

Definition _load_pid : M (option Z) :=
  st ← Eff.get;
  match pid_file st with
  | Some text =>
      Eff.try_except
        (let pid_str := Py.strip text in
         if negb (String.eqb pid_str EmptyString)
         then pid ← parse_pid pid_str; mret (Some pid)
         else mret None)
        (fun e => log ERROR (MsgLoadPidError e);; mret None)
  | None => mret None
  end.

(** A failed write is logged and otherwise ignored (lines 47-51). *)
Definition _save_pid (pid : Z) : M unit :=
  st ← Eff.get;
  match pid_write_fault (Py.str_of_Z pid) (pid_file st) (machine st) with
  | None => set_pid_file (Some (Py.str_of_Z pid))
  | Some (e, remains) => set_pid_file remains;; log ERROR (MsgSavePidError e)
  end.

(** A failed removal is logged and otherwise ignored (lines 55-59). *)
Definition _remove_pid : M unit :=
  st ← Eff.get;
  match pid_unlink_fault (machine st) with
  | None => set_pid_file None
  | Some e => log ERROR (MsgRemovePidError e)
  end.

Definition _is_process_running (pid : Z) : M bool :=
  st ← Eff.get;
  if proc_entry_exists pid (machine st) then mret true
  else
    Eff.try_except (kill pid SIG0;; mret true)
      (fun e => if is_OSError e then mret false else Eff.raise e).

(** First step of [is_running]: the process object, when there is one. *)
Definition handle_alive : M bool :=
  st ← Eff.get;
  match process st with
  | Some child =>
      code ← poll child;
      match code with
      | None => mret true
      | Some _ => set_process None;; mret false
      end
  | None => mret false
  end.

Definition is_running : M bool :=
  alive ← handle_alive;
  if alive : bool then mret true
  else
    pid ← _load_pid;
    match pid with
    | Some pid =>
        running ← _is_process_running pid;
        if running : bool then mret true
        else log INFO (MsgCleaningUp pid);; _remove_pid;; mret false
    | None => mret false
    end.

Definition start : M bool :=
  running ← is_running;
  if running : bool then log WARNING MsgAlreadyRunning;; mret false
  else
    st ← Eff.get;
    if negb (script_exists (machine st))
    then log ERROR MsgScriptNotFound;; mret false
    else
      Eff.try_except
        (log INFO MsgStarting;;
         child ← spawn;
         set_process (Some child);;
         sleep 1000;;
         running ← is_running;
         if running : bool then
           st ← Eff.get;
           match process st with
           | Some pid => _save_pid pid;; log INFO (MsgStarted pid);; mret true
           | None => Eff.raise AttributeError
           end
         else log ERROR MsgFailedToStart;; mret false)
        (fun e => log ERROR (MsgStartError e);; set_process None;; mret false).

(** Signal the process group of [pid], or the process itself on Windows. *)
Definition signal_listener (pid : Z) (sig : signal) : M unit :=
  if os_name_nt then kill pid sig
  else pgid ← getpgid pid; killpg pgid sig.

(** The wait loop of [stop]: [true] when the process was seen gone within
    [n] probes, 100 ms apart. *)
Fixpoint wait_exit (n : nat) (pid : Z) : M bool :=
  match n with
  | O => mret false
  | Datatypes.S n' =>
      running ← _is_process_running pid;
      if running : bool then sleep 100;; wait_exit n' pid
      else mret true
  end.

Definition stop : M bool :=
  running ← is_running;
  if negb running then log WARNING MsgNotRunning;; mret false
  else
    Eff.try_except
      (st ← Eff.get;
       pid ← match process st with
             | Some child => mret (Some child)
             | None => _load_pid
             end;
       match pid with
       | None => log ERROR MsgNoPid;; mret false
       | Some pid =>
           log INFO (MsgStopping pid);;
           delivered ← Eff.try_except (signal_listener pid SIGTERM;; mret true)
                         (fun e => match e with
                                   | ProcessLookupError => mret false
                                   | _ => Eff.raise e
                                   end);
           if negb delivered then
             log WARNING MsgAlreadyTerminated;;
             _remove_pid;; set_process None;; mret true
           else
             gone ← wait_exit 50 pid;
             if gone : bool then
               log INFO MsgStopped;; _remove_pid;; set_process None;; mret true
             else
               log WARNING MsgForcingKill;;
               Eff.try_except (signal_listener pid SIGKILL)
                 (fun e => match e with
                           | ProcessLookupError => mret tt
                           | _ => Eff.raise e
                           end);;
               _remove_pid;; set_process None;; mret true
       end)
      (fun e => log ERROR (MsgStopError e);; _remove_pid;; set_process None;; mret false).

Definition restart : M bool :=
  log INFO MsgRestarting;;
  stop;;
  sleep 1000;;
  start.
(** [get_status]: the answer of [is_running], and the pid when running. *)
Definition get_status : M (bool * option Z) :=
  running ← is_running;
  pid ← (if running : bool then
           st ← Eff.get;
           match process st with
           | Some child => mret (Some child)
           | None => _load_pid
           end
         else mret None);
  mret (running, pid).

(** The three refusals of the control surface, each with the situation it
    answers. *)
Inductive refusal : Type :=
| StopNotRunning
| StartAlreadyRunning
| StartScriptMissing.

Definition refused_call (why : refusal) : M bool :=
  match why with
  | StopNotRunning => stop
  | StartAlreadyRunning => start
  | StartScriptMissing => start
  end.

Definition refusal_applies (why : refusal) (st : state W) : Prop :=
  match why with
  | StopNotRunning => Eff.result_of (is_running st) = Return false
  | StartAlreadyRunning => Eff.result_of (is_running st) = Return true
  | StartScriptMissing =>
      (∃ running, Eff.result_of (is_running st) = Return running)
      ∧ script_exists (machine (Eff.state_of (is_running st))) = false
  end.
End Manager.

(** [l[start:]], with Python's reading of a negative or oversized index. *)
Definition slice_from {A : Type} (start : Z) (l : list A) : list A :=
  let n := Z.of_nat (length l) in
  let i := if (start <? 0)%Z then Z.max (n + start) 0 else Z.min start n in
  drop (Z.to_nat i) l.

(** [get_logs(lines)] on the log file: [None] when there is no file,
    otherwise what opening and reading it gives, the lines as [readlines]
    returns them or an exception.  [describe e] is [str(e)].  The result is
    the text returned, with the exception logged at level ERROR, if any. *)
Definition get_logs (describe : exn -> string)
    (log_file : option (completion (list string))) (lines : Z)
  : string * option exn :=
  match log_file with
  | None => ("No logs available", None)
  | Some (Return all_lines) =>
      let recent_lines := slice_from (- lines) all_lines in
      (join EmptyString (reverse recent_lines), None)
  | Some (Raise e) => ("Error reading logs: " +:+ describe e, Some e)
  end.

(** *** Reading a trace *)

(** The processes a trace launched (or tried to). *)
Definition launches (tr : list event) : list (completion Z) :=
  omap (fun e => match e with Spawn res => Some res | _ => None end) tr.

(** The signals of a trace that ask a process to end; the probe with
    signal 0 is not one. *)
Definition terminations (tr : list event) : list (Z * signal) :=
  omap (fun e => match e with
                 | Kill pid SIGTERM _ | KillGroup pid SIGTERM _ => Some (pid, SIGTERM)
                 | Kill pid SIGKILL _ | KillGroup pid SIGKILL _ => Some (pid, SIGKILL)
                 | _ => None
                 end) tr.

(** The record with which [start] refuses a running listener. *)
Definition refused_as_running (tr : list event) : bool :=
  existsb (fun e => match e with Log WARNING MsgAlreadyRunning => true | _ => false end) tr.

End ListenerManager.

(** ** [src/config.py]: queries on the loaded document *)

Module ConfigManager.
Import Py WebhookForwarder.

#[global] Instance completion_ret : MRet completion := @Return.
#[global] Instance completion_bind : MBind completion :=
  fun A B k c => match c with Return a => k a | Raise e => Raise e end.

(** [d.get(key, dflt)] on a dictionary value; the keys of a dictionary are
    distinct. *)
Fixpoint assoc_get (d : list (string * value)) (key : string) (dflt : value) : value :=
  match d with
  | [] => dflt
  | (k, v) :: rest => if String.eqb k key then v else assoc_get rest key dflt
  end.

(** [self.data.get("bot", {}).get(key, dflt)]: a [bot] entry that is not a
    dictionary has no [get]. *)
Definition bot_get (c : config) (key : string) (dflt : value) : completion value :=
  match cfg_bot c with
  | None => Return dflt
  | Some (VDict d) => Return (assoc_get d key dflt)
  | Some _ => Raise AttributeError
  end.

Definition get_bot_token (c : config) : completion value := bot_get c "token" VNone.

Definition is_bot_enabled (c : config) : completion value :=
  bot_get c "enabled" (VBool true).

Definition get_webhook_rules (c : config) (enabled_only : bool) : list rule :=
  let rules := default [] (cfg_webhook_rules c) in
  if enabled_only
  then List.filter (fun r => truthy (dict_get_default r "enabled" (VBool true))) rules
  else rules.

End ConfigManager.

(** ** [discord_listener.py]: building the listener from the configuration *)

Module DiscordListener.
Import Py WebhookForwarder.

(** What [initialize] sets up: the bot manager's token, and the forwarder
    whose [handle_event] becomes the event handler. *)
Record listener : Type := Listener {
  bot_token : value;
  webhook_forwarder : forwarder;
}.

Definition initialize (c : config) : completion listener :=
  token ← ConfigManager.get_bot_token c;
  if negb (truthy token) then Raise ValueError
  else
    enabled ← ConfigManager.is_bot_enabled c;
    if negb (truthy enabled) then Raise ValueError
    else
      fw ← __init__ c;
      mret (Listener token (start fw)).

End DiscordListener.

(** ** The JSON text of a list of plain names

    The text [json.dumps] writes for a list of strings made of printable
    ASCII characters other than the double quote and the backslash. *)

Definition plain_char (c : ascii) : bool :=
  (32 <=? N_of_ascii c)%N && (N_of_ascii c <=? 126)%N
  && negb (Ascii.eqb c dquote) && negb (Ascii.eqb c backslash).

Fixpoint plain (s : string) : bool :=
  match s with
  | EmptyString => true
  | String c r => plain_char c && plain r
  end.

Definition quoted (s : string) : string := String dquote (s +:+ str1 dquote).

Definition json_list_text (names : list string) : string :=
  "[" +:+ join ", " (quoted <$> names) +:+ "]".

(** The text that follows an item of such a list: the closing bracket, or a
    comma, a space and the next item. *)
Fixpoint items_tail (names : list string) : string :=
  match names with
  | [] => "]"
  | n :: rest =>
      String "," (String " " (String dquote (n +:+ String dquote (items_tail rest))))
  end.

(** A text without white space, which [strip] leaves as it is. *)
Fixpoint no_ws (s : string) : bool :=
  match s with
  | EmptyString => true
  | String c r => negb (Py.is_ws c) && no_ws r
  end.

(** ** The event-type rule as the specification words it

    Null matches every type; a list matches its members; a scalar matches
    the type equal to it; any other shape matches nothing. *)

Definition spec_event_match (r : WebhookForwarder.rule) (event_type : string) : bool :=
  match WebhookForwarder.dict_get r "event_type" with
  | Py.VNone => true
  | Py.VList l => Py.str_in event_type l
  | Py.VStr s => String.eqb s event_type
  | _ => false
  end.

(** ** Sample data *)

Module Sample.
Import Py WebhookForwarder.

(** The text of the JSON list holding the one string [message]. *)
Definition json_message_list : string :=
  "[" +:+ str1 dquote +:+ "message" +:+ str1 dquote +:+ "]".

Definition make_rule (name : string) (enabled : bool)
    (event_type scope_type scope_id : value) : rule :=
  list_to_map
    [("name", VStr name);
     ("webhook_url", VStr ("https://hooks.example/" +:+ name));
     ("enabled", VBool enabled);
     ("event_type", event_type);
     ("scope_type", scope_type);
     ("scope_id", scope_id)].

Definition rule_all : rule := make_rule "all" true VNone VNone VNone.
Definition rule_json_list : rule :=
  make_rule "json" true (VStr json_message_list) VNone VNone.
Definition rule_guild_only : rule :=
  make_rule "guild-only" true VNone (VStr "guild") VNone.
Definition rule_guild_42 : rule :=
  make_rule "guild-42" true VNone (VStr "guild") (VStr "42").
Definition rule_disabled : rule := make_rule "off" false VNone VNone VNone.

Definition config_of (rules : list rule) : config := Config None (Some rules).

(** The event types the gateway callbacks produce. *)
Definition event_types : list string :=
  ["message"; "member_join"; "member_remove"; "reaction_add";
   "channel_create"; "channel_delete"].

Definition rule_reactions_guild_100 : rule :=
  make_rule "reactions" true (VList [VStr "reaction_add"]) (VStr "guild") (VStr "100").

(** A scripted network: each POST takes the next scripted answer (204 when
    the script is over); the clock stands still. *)
Definition clock : string := "2026-01-01T00:00:00+00:00".

Definition scripted_env : Env (list (completion Z)) :=
  {| http_post := fun _ _ _ w =>
       match w with
       | res :: rest => (res, rest)
       | [] => (Return 204%Z, [])
       end;
     utc_now_iso := fun w => (clock, w) |}.

Definition forwarder_of (rules : list rule) : forwarder :=
  Forwarder (config_of rules) (Some session_client).

(** A message of a human author in guild 42, and one of a bot. *)
Definition alice : BotManager.user := BotManager.User "alice" 1001 false.
Definition robot : BotManager.user := BotManager.User "robot" 2002 true.

Definition general : BotManager.channel := BotManager.Channel "general" 7 None.

Definition hello_from (u : BotManager.user) : BotManager.message :=
  BotManager.Message 555 "hello" u general (Some (BotManager.Guild "home" 42))
    "2024-05-01T12:00:00+00:00".

Definition hello : BotManager.message := hello_from alice.

Definition thumbs_up : BotManager.reaction := BotManager.Reaction "+1" hello.

(** A machine with a process table: the live pids, the pid the next child
    gets, and whether the listener script is there.  A signal other than the
    probe ends its target at once; a process is its own group. *)
Record machine : Type := Machine {
  live : list Z;
  next_pid : Z;
  has_script : bool;
}.

Definition is_live (pid : Z) (m : machine) : bool := bool_decide (pid ∈ live m).

Definition deliver (pid : Z) (sig : ListenerManager.signal) (m : machine)
  : completion unit * machine :=
  if is_live pid m then
    match sig with
    | ListenerManager.SIG0 => (Return tt, m)
    | _ => (Return tt, Machine (List.filter (fun p => negb (p =? pid)%Z) (live m))
                               (next_pid m) (has_script m))
    end
  else (Raise ProcessLookupError, m).

Definition simple_os : ListenerManager.OS machine :=
  {| ListenerManager.os_name_nt := false;
     ListenerManager.proc_entry_exists := is_live;
     ListenerManager.os_kill := deliver;
     ListenerManager.os_getpgid := fun pid m =>
       if is_live pid m then Return pid else Raise ProcessLookupError;
     ListenerManager.os_killpg := deliver;
     ListenerManager.popen := fun m =>
       (Return (next_pid m),
        Machine (next_pid m :: live m) (next_pid m + 1) (has_script m));
     ListenerManager.popen_poll := fun pid m =>
       (if is_live pid m then None else Some 0%Z, m);
     ListenerManager.time_sleep := fun _ m => m;
     ListenerManager.script_exists := has_script;
     ListenerManager.pid_write_fault := fun _ _ _ => None;
     ListenerManager.pid_unlink_fault := fun _ => None |}.

(** No process object, a PID file left by a listener that is gone. *)
Definition stale_state : ListenerManager.state machine :=
  ListenerManager.State None (Some "4242") (Machine [] 100 true).

(** Nothing running, nothing recorded; the script is there, or not. *)
Definition idle_state : ListenerManager.state machine :=
  ListenerManager.State None None (Machine [] 100 true).

Definition no_script_state : ListenerManager.state machine :=
  ListenerManager.State None None (Machine [] 100 false).

(** A machine on which the probe of a pid fails with an exception that is
    not an [OSError] (a number that does not fit a pid). *)
Definition overflow_os : ListenerManager.OS machine :=
  {| ListenerManager.os_name_nt := false;
     ListenerManager.proc_entry_exists := fun _ _ => false;
     ListenerManager.os_kill := fun _ _ m => (Raise OverflowError, m);
     ListenerManager.os_getpgid := fun _ _ => Raise OverflowError;
     ListenerManager.os_killpg := fun _ _ m => (Raise OverflowError, m);
     ListenerManager.popen := fun m => (Raise OSError, m);
     ListenerManager.popen_poll := fun _ m => (Some 0%Z, m);
     ListenerManager.time_sleep := fun _ m => m;
     ListenerManager.script_exists := has_script;
     ListenerManager.pid_write_fault := fun _ _ _ => None;
     ListenerManager.pid_unlink_fault := fun _ => None |}.

(** The sample machine with the PID file in a directory that cannot be
    written: the file can be neither rewritten nor removed. *)
Definition read_only_os : ListenerManager.OS machine :=
  {| ListenerManager.os_name_nt := false;
     ListenerManager.proc_entry_exists := is_live;
     ListenerManager.os_kill := deliver;
     ListenerManager.os_getpgid := fun pid m =>
       if is_live pid m then Return pid else Raise ProcessLookupError;
     ListenerManager.os_killpg := deliver;
     ListenerManager.popen := fun m =>
       (Return (next_pid m),
        Machine (next_pid m :: live m) (next_pid m + 1) (has_script m));
     ListenerManager.popen_poll := fun pid m =>
       (if is_live pid m then None else Some 0%Z, m);
     ListenerManager.time_sleep := fun _ m => m;
     ListenerManager.script_exists := has_script;
     ListenerManager.pid_write_fault := fun _ old _ => Some (PermissionError, old);
     ListenerManager.pid_unlink_fault := fun _ => Some PermissionError |}.

Definition oversized_pid_state : ListenerManager.state machine :=
  ListenerManager.State None (Some "99999999999999999999") (Machine [] 100 true).

(** A listener started by this manager: child 100, recorded in the file. *)
Definition running_state : ListenerManager.state machine :=
  ListenerManager.State (Some 100%Z) (Some "100") (Machine [100%Z] 101 true).

End Sample.

(** * Properties *)

(** ** The decoder *)

Section DecoderFacts.
Import Json.
#[local] Open Scope nat_scope.

Lemma skip_ws_length (s : string) : String.length (skip_ws s) ≤ String.length s.
Proof.
  induction s as [|c r IH]; simpl; [lia |].
  destruct (is_ws c); simpl; lia.
Qed.

Lemma span_digits_length (s ds rest : string) :
  span_digits s = (ds, rest) →
  String.length s = String.length ds + String.length rest.
Proof.
  revert ds rest. induction s as [|c r IH]; simpl; intros ds rest.
  - intros [= <- <-]. done.
  - destruct (is_digit c).
    + destruct (span_digits r) as [ds' rest'] eqn:Hr. intros [= <- <-].
      simpl. rewrite (IH ds' rest'); done.
    + intros [= <- <-]. done.
Qed.

Lemma drop_prefix_length (p s r : string) :
  drop_prefix p s = Some r → String.length s = String.length p + String.length r.
Proof.
  revert s. induction p as [|a p IH]; intros [|b s]; simpl; try discriminate.
  - intros [= <-]. done.
  - intros [= <-]. done.
  - destruct (Ascii.eqb a b); [| discriminate]. intros H. by rewrite (IH s H).
Qed.

Lemma scanstring_shorter (n : nat) :
  ∀ s t rest, String.length s ≤ n → scanstring s = Some (t, rest) →
              String.length rest < String.length s.
Proof.
  induction n as [|n IH]; intros s t rest Hn Hs.
  - destruct s; [discriminate | simpl in Hn; lia].
  - destruct s as [|c r]; [discriminate |].
    simpl in Hs, Hn.
    destruct (Ascii.eqb c dquote); [injection Hs as <- <-; simpl; lia |].
    destruct (N_of_ascii c <? 32)%N; [discriminate |].
    destruct (Ascii.eqb c backslash).
    + destruct r as [|e r1]; [discriminate |].
      destruct (Ascii.eqb e "u").
      * destruct r1 as [|h1 [|h2 [|h3 [|h4 r2]]]]; try discriminate.
        destruct (hex4 h1 h2 h3 h4) as [hi|]; [| discriminate].
        assert (Hsingle : ∀ t rest,
          match scanstring r2 with
          | Some (t0, rest0) => Some (utf8 hi +:+ t0, rest0)
          | None => None
          end = Some (t, rest) → String.length rest < String.length r2).
        { intros t' rest'. destruct (scanstring r2) as [[t0 rest0]|] eqn:Hr2;
            [| discriminate].
          intros [= <- <-]. apply (IH r2 t0 rest0); [simpl in *; lia | done]. }
        simpl in *.
        destruct ((55296 <=? hi)%N && (hi <=? 56319)%N);
          [| apply Hsingle in Hs; lia].
        destruct r2 as [|b [|u [|g1 [|g2 [|g3 [|g4 r3]]]]]];
          try (apply Hsingle in Hs; simpl in *; lia).
        destruct (Ascii.eqb b backslash && Ascii.eqb u "u");
          [| apply Hsingle in Hs; simpl in *; lia].
        destruct (hex4 g1 g2 g3 g4) as [lo|]; [| discriminate].
        destruct ((56320 <=? lo)%N && (lo <=? 57343)%N);
          [| apply Hsingle in Hs; simpl in *; lia].
        destruct (scanstring r3) as [[t0 rest0]|] eqn:Hr3; [| discriminate].
        injection Hs as <- <-.
        pose proof (IH r3 t0 rest0 ltac:(simpl in *; lia) Hr3). simpl. lia.
      * destruct (unescape e); [| discriminate].
        destruct (scanstring r1) as [[t0 rest0]|] eqn:Hr1; [| discriminate].
        injection Hs as <- <-.
        pose proof (IH r1 t0 rest0 ltac:(simpl in *; lia) Hr1). simpl. lia.
    + destruct (scanstring r) as [[t0 rest0]|] eqn:Hr; [| discriminate].
      injection Hs as <- <-.
      pose proof (IH r t0 rest0 ltac:(lia) Hr). simpl. lia.
Qed.

Lemma scanstring_length (s t rest : string) :
  scanstring s = Some (t, rest) → String.length rest < String.length s.
Proof. apply (scanstring_shorter (String.length s)). lia. Qed.

Lemma scan_number_length (s : string) (v : json) (rest : string) :
  scan_number s = Some (v, rest) → String.length rest < String.length s.
Proof.
  unfold scan_number.
  set (p := match s with
            | String c r => if Ascii.eqb c "-" then (true, r) else (false, s)
            | EmptyString => (false, s)
            end).
  assert (Hp : String.length p.2 ≤ String.length s).
  { subst p. destruct s as [|c r]; simpl; [lia |].
    destruct (Ascii.eqb c "-"); simpl; lia. }
  destruct p as [neg s1]. simpl in Hp.
  destruct (scan_int_part s1) as [[ip r1]|] eqn:Hip; [| discriminate].
  assert (H1 : String.length r1 < String.length s1).
  { unfold scan_int_part in Hip. destruct s1 as [|c r]; [discriminate |].
    destruct (Ascii.eqb c "0"); [injection Hip as <- <-; simpl; lia |].
    destruct (is_digit c) eqn:Hd; [| discriminate].
    assert (Hspan : span_digits (String c r) = (ip, r1)) by congruence.
    pose proof (span_digits_length _ _ _ Hspan) as Hl.
    simpl in Hspan. rewrite Hd in Hspan.
    destruct (span_digits r) as [ds' rest']. injection Hspan as <- <-.
    simpl in Hl. simpl. lia. }
  destruct (scan_frac r1) as [frac r2] eqn:Hfrac.
  assert (H2 : String.length r2 ≤ String.length r1).
  { unfold scan_frac in Hfrac. destruct r1 as [|c r]; [by injection Hfrac as <- <- |].
    destruct (Ascii.eqb c "."); [| by injection Hfrac as <- <-].
    destruct (span_digits r) as [ds rest'] eqn:Hspan.
    pose proof (span_digits_length _ _ _ Hspan).
    destruct ds; injection Hfrac as <- <-; simpl in *; lia. }
  destruct (scan_exp r2) as [ex r3] eqn:Hex.
  assert (H3 : String.length r3 ≤ String.length r2).
  { unfold scan_exp in Hex. destruct r2 as [|e r]; [by injection Hex as <- <- |].
    destruct (Ascii.eqb e "e" || Ascii.eqb e "E"); [| by injection Hex as <- <-].
    set (q := match r with
              | String g r' =>
                  if Ascii.eqb g "-" || Ascii.eqb g "+" then (str1 g, r')
                  else (EmptyString, r)
              | EmptyString => (EmptyString, r)
              end) in Hex.
    assert (Hq : String.length q.2 ≤ String.length r).
    { subst q. destruct r as [|g r']; simpl; [lia |].
      destruct (Ascii.eqb g "-" || Ascii.eqb g "+"); simpl; lia. }
    destruct q as [sign rq]. simpl in Hq.
    destruct (span_digits rq) as [ds rest'] eqn:Hspan.
    pose proof (span_digits_length _ _ _ Hspan).
    destruct ds; injection Hex as <- <-; simpl in *; lia. }
  destruct frac, ex; intros [= <- <-]; lia.
Qed.

Lemma scan_atom_length (s : string) (v : json) (rest : string) :
  scan_atom s = Some (v, rest) → String.length rest < String.length s.
Proof.
  unfold scan_atom. intros H.
  repeat match type of H with
         | match drop_prefix ?p s with _ => _ end = _ =>
             let Hd := fresh "Hd" in
             destruct (drop_prefix p s) eqn:Hd;
               [ apply drop_prefix_length in Hd; injection H as <- <-;
                 simpl in Hd; lia | ]
         | match scan_number s with _ => _ end = _ =>
             let Hn := fresh "Hn" in
             destruct (scan_number s) as [[v' r']|] eqn:Hn;
               [ injection H as <- <-; by apply scan_number_length in Hn | ]
         end.
  discriminate.
Qed.

(** The decoder consumes input with every value it reads, and two units of
    fuel per character are enough for it never to run out. *)
Lemma scan_fuel (fuel : nat) :
  (∀ s,
     (∀ v rest, scan_once fuel s = Parsed v rest →
                String.length rest < String.length s)
     ∧ (2 * String.length s + 1 ≤ fuel → scan_once fuel s ≠ OutOfFuel))
  ∧ (∀ s acc,
       (∀ v rest, array_items fuel s acc = Parsed v rest →
                  String.length rest < String.length s)
       ∧ (2 * String.length s + 2 ≤ fuel → array_items fuel s acc ≠ OutOfFuel))
  ∧ (∀ s acc,
       (∀ v rest, object_items fuel s acc = Parsed v rest →
                  String.length rest < String.length s)
       ∧ (2 * String.length s + 2 ≤ fuel → object_items fuel s acc ≠ OutOfFuel)).
Proof.
  induction fuel as [|fuel (IHscan & IHarr & IHobj)].
  - repeat split; intros; try discriminate; simpl in *; lia.
  - split; [| split].
    + (* scan_once *)
      intros s. destruct s as [|c r]; [split; [discriminate | done] |].
      cbn [scan_once].
      destruct (Ascii.eqb c dquote).
      { destruct (scanstring r) as [[t rest0]|] eqn:Hstr.
        - split; [| done]. intros v rest [= <- <-].
          apply scanstring_length in Hstr. simpl. lia.
        - split; [discriminate | done]. }
      destruct (Ascii.eqb c "[").
      { pose proof (skip_ws_length r) as Hws.
        destruct (skip_ws r) as [|d r1] eqn:Hsk; [split; [discriminate | done] |].
        destruct (Ascii.eqb d "]").
        - split; [| done]. intros v rest [= <- <-]. simpl in *. lia.
        - destruct (IHarr (String d r1) []) as [Hlen Hfuel]. split.
          + intros v rest Hp. apply Hlen in Hp. simpl in *. lia.
          + intros Hf. apply Hfuel. simpl in *. lia. }
      destruct (Ascii.eqb c "{").
      { pose proof (skip_ws_length r) as Hws.
        destruct (skip_ws r) as [|d r1] eqn:Hsk; [split; [discriminate | done] |].
        destruct (Ascii.eqb d "}").
        - split; [| done]. intros v rest [= <- <-]. simpl in *. lia.
        - destruct (Ascii.eqb d dquote); [| split; [discriminate | done]].
          destruct (IHobj r1 []) as [Hlen Hfuel]. split.
          + intros v rest Hp. apply Hlen in Hp. simpl in *. lia.
          + intros Hf. apply Hfuel. simpl in *. lia. }
      destruct (scan_atom (String c r)) as [[v0 rest0]|] eqn:Hatom.
      { split; [| done]. intros v rest [= <- <-].
        by apply scan_atom_length in Hatom. }
      split; [discriminate | done].
    + (* array_items *)
      intros s acc. cbn [array_items].
      destruct (IHscan s) as [Hlen Hfuel].
      destruct (scan_once fuel s) as [v0 rest0| |] eqn:Hscan.
      * specialize (Hlen v0 rest0 eq_refl).
        pose proof (skip_ws_length rest0) as Hws.
        destruct (skip_ws rest0) as [|d r1] eqn:Hsk;
          [split; [discriminate | done] |].
        destruct (Ascii.eqb d "]").
        { split; [| done]. intros v rest [= <- <-]. simpl in *. lia. }
        destruct (Ascii.eqb d ","); [| split; [discriminate | done]].
        pose proof (skip_ws_length r1) as Hws1.
        destruct (IHarr (skip_ws r1) (v0 :: acc)) as [Hlen' Hfuel']. split.
        -- intros v rest Hp. apply Hlen' in Hp. simpl in *. lia.
        -- intros Hf. apply Hfuel'. simpl in *. lia.
      * split; [discriminate | done].
      * split; [discriminate |]. intros Hf. exfalso. apply Hfuel; [lia | done].
    + (* object_items *)
      intros s acc. cbn [object_items].
      destruct (scanstring s) as [[key rest0]|] eqn:Hstr;
        [| split; [discriminate | done]].
      apply scanstring_length in Hstr.
      pose proof (skip_ws_length rest0) as Hws.
      destruct (skip_ws rest0) as [|d r1] eqn:Hsk; [split; [discriminate | done] |].
      destruct (Ascii.eqb d ":"); [| split; [discriminate | done]].
      pose proof (skip_ws_length r1) as Hws1.
      destruct (IHscan (skip_ws r1)) as [Hlen Hfuel].
      destruct (scan_once fuel (skip_ws r1)) as [v0 rest1| |] eqn:Hscan.
      * specialize (Hlen v0 rest1 eq_refl).
        pose proof (skip_ws_length rest1) as Hws2.
        destruct (skip_ws rest1) as [|e r2] eqn:Hsk2;
          [split; [discriminate | done] |].
        destruct (Ascii.eqb e "}").
        { split; [| done]. intros v rest [= <- <-]. simpl in *. lia. }
        destruct (Ascii.eqb e ","); [| split; [discriminate | done]].
        pose proof (skip_ws_length r2) as Hws3.
        destruct (skip_ws r2) as [|q r3] eqn:Hsk3;
          [split; [discriminate | done] |].
        destruct (Ascii.eqb q dquote); [| split; [discriminate | done]].
        destruct (IHobj r3 ((key, v0) :: acc)) as [Hlen' Hfuel']. split.
        -- intros v rest Hp. apply Hlen' in Hp. simpl in *. lia.
        -- intros Hf. apply Hfuel'. simpl in *. lia.
      * split; [discriminate | done].
      * split; [discriminate |]. intros Hf. exfalso.
        apply Hfuel; [simpl in *; lia | done].
Qed.

(** [loads] never answers for want of fuel: it returns [None] only for a
    text that is not one JSON value. *)
Lemma loads_fuel (s : string) :
  scan_once (fuel_for (skip_ws s)) (skip_ws s) ≠ OutOfFuel.
Proof.
  destruct (scan_fuel (fuel_for (skip_ws s))) as (Hscan & _ & _).
  apply Hscan. unfold fuel_for. lia.
Qed.

End DecoderFacts.

Section MatcherFacts.
Import Py WebhookForwarder.

Lemma eq_str_true (v : value) (s : string) : eq_str v s = true ↔ v = VStr s.
Proof.
  destruct v; simpl; try (split; [discriminate | intros [=]]).
  rewrite String.eqb_eq. split; [intros -> | intros [=]]; done.
Qed.

Lemma str_in_elem (s : string) (l : list value) : str_in s l = true ↔ VStr s ∈ l.
Proof.
  unfold str_in. rewrite existsb_exists. split.
  - intros (v & Hin & Heq). apply eq_str_true in Heq as ->.
    by apply list_elem_of_In.
  - intros Hin. exists (VStr s). split; [by apply list_elem_of_In |].
    by apply eq_str_true.
Qed.

Lemma json_str_in_elem (s : string) (l : list Json.json) :
  Json.str_in s l = true ↔ Json.JStr s ∈ l.
Proof.
  unfold Json.str_in. rewrite existsb_exists. split.
  - intros (j & Hin & Heq). destruct j; try discriminate.
    apply String.eqb_eq in Heq as ->. by apply list_elem_of_In.
  - intros Hin. exists (Json.JStr s). split; [by apply list_elem_of_In |].
    apply String.eqb_refl.
Qed.

Lemma has_scope_true (scope_type scope_id : option string) :
  has_scope scope_type scope_id = true ↔
  ∃ t i, scope_type = Some t ∧ scope_id = Some i
         ∧ t ≠ EmptyString ∧ i ≠ EmptyString.
Proof.
  unfold has_scope, truthy_str. split.
  - destruct scope_type as [t|], scope_id as [i|]; simpl; try discriminate.
    + rewrite andb_true_iff, !negb_true_iff, !String.eqb_neq.
      intros [Ht Hi]. by exists t, i.
    + rewrite andb_false_r. discriminate.
  - intros (t & i & -> & -> & Ht & Hi).
    rewrite andb_true_iff, !negb_true_iff, !String.eqb_neq. done.
Qed.

(** A rule without [scope_type] passes the scope test for every event. *)
Lemma scope_match_no_scope_type (r : rule) (scope_type scope_id : option string) :
  is_None (dict_get r "scope_type") = true →
  scope_match r scope_type scope_id = true.
Proof.
  intros H. unfold scope_match. rewrite H. simpl. by rewrite andb_false_r.
Qed.

(** An event without a scope passes the scope test of every rule. *)
Lemma scope_match_no_scope (r : rule) (scope_type scope_id : option string) :
  has_scope scope_type scope_id = false →
  scope_match r scope_type scope_id = true.
Proof. intros H. unfold scope_match. by rewrite H. Qed.

(** A scoped event against a scoped rule: both the kind and the identifier
    are compared. *)
Lemma scope_match_scoped (r : rule) (t i : string) :
  has_scope (Some t) (Some i) = true →
  is_None (dict_get r "scope_type") = false →
  scope_match r (Some t) (Some i)
  = eq_str (dict_get r "scope_type") t && String.eqb (str (dict_get r "scope_id")) i.
Proof. intros H1 H2. unfold scope_match. by rewrite H1, H2. Qed.

(** The event-type test on a string-valued [event_type]: the decoded list
    when the text is one, the text itself otherwise. *)
Lemma event_match_text (s event_type : string) :
  match Json.loads s with
  | Some (Json.JArr event_types) => Json.str_in event_type event_types
  | Some _ => String.eqb s event_type
  | None => String.eqb s event_type
  end = true ↔
  (∃ js, Json.loads s = Some (Json.JArr js) ∧ Json.JStr event_type ∈ js)
  ∨ ((∀ js, Json.loads s ≠ Some (Json.JArr js)) ∧ s = event_type).
Proof.
  destruct (Json.loads s) as [[|b|n|lit|t|js|m]|];
    try (rewrite String.eqb_eq; split;
         [ intros ->; right; split; [intros js'; discriminate | reflexivity]
         | intros [(js' & [=] & _)|[_ ->]]; reflexivity ]).
  rewrite json_str_in_elem. split.
  - intros Hin. left. by exists js.
  - intros [(js' & [= <-] & Hin)|[Hnl _]]; [done | by destruct (Hnl js)].
Qed.

(** The loop keeps exactly the enabled rules that pass both tests. *)
Lemma elem_of_matching_rules (rules : list rule) (r : rule) (event_type : string)
    (scope_type scope_id : option string) :
  r ∈ matching_rules rules event_type scope_type scope_id ↔
  r ∈ rules ∧ rule_enabled r = true ∧ event_match r event_type = true
  ∧ scope_match r scope_type scope_id = true.
Proof.
  induction rules as [|x rest IH]; simpl.
  - rewrite elem_of_nil. tauto.
  - destruct (rule_enabled x) eqn:Hen; simpl.
    + destruct (event_match x event_type) eqn:Hev; simpl.
      * destruct (scope_match x scope_type scope_id) eqn:Hsc.
        -- rewrite !elem_of_cons, IH. split; [intros [->|?] | ]; tauto.
        -- rewrite elem_of_cons, IH.
           split; [tauto | intros [[->|?] (? & ? & ?)]; [congruence | tauto]].
      * rewrite elem_of_cons, IH.
        split; [tauto | intros [[->|?] (? & ? & ?)]; [congruence | tauto]].
    + rewrite elem_of_cons, IH.
      split; [tauto | intros [[->|?] (? & ? & ?)]; [congruence | tauto]].
Qed.

Lemma matching_rules_sublist (rules : list rule) (event_type : string)
    (scope_type scope_id : option string) :
  sublist (matching_rules rules event_type scope_type scope_id) rules.
Proof.
  induction rules as [|x rest IH]; simpl; [constructor |].
  destruct (negb (rule_enabled x)); [by apply sublist_cons |].
  destruct (event_match x event_type && scope_match x scope_type scope_id);
    [by apply sublist_skip | by apply sublist_cons].
Qed.

(** When every rule is enabled and matches, the whole sequence comes back. *)
Lemma matching_rules_all (rules : list rule) (event_type : string)
    (scope_type scope_id : option string) :
  Forall (λ r, rule_enabled r = true ∧ event_match r event_type = true
               ∧ scope_match r scope_type scope_id = true) rules →
  matching_rules rules event_type scope_type scope_id = rules.
Proof.
  induction 1 as [|x rest (Hen & Hev & Hsc) _ IH]; simpl; [done |].
  by rewrite Hen, Hev, Hsc, IH.
Qed.

Lemma elem_of_get_matching_rules (c : config) (r : rule) (event_type : string)
    (scope_type scope_id : option string) :
  r ∈ _get_matching_rules_from_config c event_type scope_type scope_id ↔
  r ∈ default [] (cfg_webhook_rules c) ∧ rule_enabled r = true
  ∧ event_match r event_type = true ∧ scope_match r scope_type scope_id = true.
Proof.
  unfold _get_matching_rules_from_config, config_truthy.
  destruct c as [b [rules|]]; simpl.
  - destruct b; simpl; apply elem_of_matching_rules.
  - destruct b; simpl; rewrite elem_of_nil; tauto.
Qed.

Lemma get_matching_rules_sublist (c : config) (event_type : string)
    (scope_type scope_id : option string) :
  sublist (_get_matching_rules_from_config c event_type scope_type scope_id)
    (default [] (cfg_webhook_rules c)).
Proof.
  unfold _get_matching_rules_from_config.
  destruct (negb (config_truthy c)); [apply sublist_nil_l |].
  apply matching_rules_sublist.
Qed.

End MatcherFacts.

(** ** Rule matching *)

Section MatcherClaims.
Import Py WebhookForwarder.

(** Claim C4, as stated, fails: a rule whose [event_type] is the string
    holding the JSON text of the list with [message] matches a [message]
    event, although that string is a scalar different from [message]. *)
Lemma event_match_json_text_counterexample :
  dict_get Sample.rule_json_list "event_type" = VStr Sample.json_message_list
  ∧ Json.loads Sample.json_message_list = Some (Json.JArr [Json.JStr "message"])
  ∧ event_match Sample.rule_json_list "message" = true
  ∧ spec_event_match Sample.rule_json_list "message" = false.
Proof. repeat split; vm_compute; reflexivity. Qed.

(** Claim C4 (amended).  The event-type condition holds exactly when the
    rule's [event_type] is null or absent; or is a list containing the
    incoming type; or is a string that [json.loads] decodes to a list
    containing the incoming type; or is a string that [json.loads] does not
    decode to a list (it raises, or yields another value) and that equals the
    incoming type.  Any other shape is a non-match. *)
Theorem event_match_iff (r : rule) (event_type : string) :
  event_match r event_type = true ↔
    dict_get r "event_type" = VNone
    ∨ (∃ l, dict_get r "event_type" = VList l ∧ VStr event_type ∈ l)
    ∨ (∃ s, dict_get r "event_type" = VStr s
            ∧ ((∃ js, Json.loads s = Some (Json.JArr js) ∧ Json.JStr event_type ∈ js)
               ∨ ((∀ js, Json.loads s ≠ Some (Json.JArr js)) ∧ s = event_type))).
Proof.
  unfold event_match.
  destruct (dict_get r "event_type") as [|b|n|s|l|d] eqn:Hv.
  - split; [by left | done].
  - split; [discriminate | intros [?|[(? & ? & _)|(? & ? & _)]]; discriminate].
  - split; [discriminate | intros [?|[(? & ? & _)|(? & ? & _)]]; discriminate].
  - rewrite event_match_text. split.
    + intros H. right. right. by exists s.
    + intros [?|[(? & ? & _)|(s0 & [= <-] & H)]]; try discriminate. done.
  - rewrite str_in_elem. split.
    + intros Hin. right. left. by exists l.
    + intros [?|[(l' & [= <-] & Hin)|(? & ? & _)]]; try discriminate. done.
  - split; [discriminate | intros [?|[(? & ? & _)|(? & ? & _)]]; discriminate].
Qed.

(** Claim C1, as stated, fails: an enabled rule with [scope_type] ["guild"]
    and a null [scope_id] is not returned for an event whose scope is
    channel 7, while the same rule without [scope_type] is. *)
Lemma scope_type_only_counterexample :
  rule_enabled Sample.rule_guild_only = true
  ∧ is_None (dict_get Sample.rule_guild_only "scope_type") = false
  ∧ is_None (dict_get Sample.rule_guild_only "scope_id") = true
  ∧ scope_match Sample.rule_guild_only (Some "channel") (Some "7") = false
  ∧ _get_matching_rules_from_config (Sample.config_of [Sample.rule_guild_only])
      "message" (Some "channel") (Some "7") = []
  ∧ _get_matching_rules_from_config (Sample.config_of [Sample.rule_all])
      "message" (Some "channel") (Some "7") = [Sample.rule_all].
Proof. repeat split; vm_compute; reflexivity. Qed.

(** Claim C1 (amended).  For a rule whose [scope_type] is set and whose
    [scope_id] is null: the scope condition holds for every event that
    carries no scope, as for a rule with [scope_type] null; it does not hold
    for an event whose scope is of another kind than the rule's
    [scope_type].  (Events of the rule's own kind are left aside.) *)
Theorem scope_type_without_id (r : rule) (scope_type scope_id : option string) :
  is_None (dict_get r "scope_type") = false →
  is_None (dict_get r "scope_id") = true →
  has_scope scope_type scope_id = false
  ∨ eq_opt_str (dict_get r "scope_type") scope_type = false →
  scope_match r scope_type scope_id = negb (has_scope scope_type scope_id).
Proof.
  intros Hst Hsi [Hno|Hkind].
  - rewrite Hno. by apply scope_match_no_scope.
  - unfold scope_match. rewrite Hst, Hkind. simpl.
    rewrite andb_true_r. by destruct (has_scope scope_type scope_id).
Qed.

Lemma scope_type_without_id_witness :
  scope_match Sample.rule_guild_only (Some "channel") (Some "7")
  = negb (has_scope (Some "channel") (Some "7")).
Proof.
  apply (scope_type_without_id Sample.rule_guild_only (Some "channel") (Some "7")).
  - vm_compute. reflexivity.
  - vm_compute. reflexivity.
  - right. vm_compute. reflexivity.
Defined.

(** What the code does for an event of the rule's own kind: the null
    [scope_id] is compared as the text [None]. *)
Lemma scope_type_only_same_kind (r : rule) (t i : string) :
  has_scope (Some t) (Some i) = true →
  dict_get r "scope_type" = VStr t →
  dict_get r "scope_id" = VNone →
  scope_match r (Some t) (Some i) = String.eqb "None" i.
Proof.
  intros Hs Ht Hi. rewrite scope_match_scoped by (done || by rewrite Ht).
  rewrite Ht, Hi. simpl. by rewrite String.eqb_refl.
Qed.

(** Claim C3, as stated, fails: the rule for guild 42 is returned for an
    event that carries no scope. *)
Lemma guild_42_no_scope_counterexample :
  dict_get Sample.rule_guild_42 "scope_type" = VStr "guild"
  ∧ dict_get Sample.rule_guild_42 "scope_id" = VStr "42"
  ∧ rule_enabled Sample.rule_guild_42 = true
  ∧ event_match Sample.rule_guild_42 "message" = true
  ∧ derive_scope ∅ = (None, None)
  ∧ _get_matching_rules_from_config (Sample.config_of [Sample.rule_guild_42])
      "message" None None = [Sample.rule_guild_42].
Proof. repeat split; vm_compute; reflexivity. Qed.

(** Claim C3 (amended).  An enabled rule of the configuration with
    [scope_type = "guild"], [scope_id = "42"] and a matching event type is
    returned if and only if the event's scope is guild 42 or the event
    carries no scope.  In particular it is not returned for channel 42 nor
    for guild 43, and it is returned for an event without scope. *)
Theorem guild_42_rule (c : config) (r : rule) (event_type : string)
    (scope_type scope_id : option string) :
  r ∈ default [] (cfg_webhook_rules c) →
  dict_get r "scope_type" = VStr "guild" →
  dict_get r "scope_id" = VStr "42" →
  rule_enabled r = true →
  event_match r event_type = true →
  (r ∈ _get_matching_rules_from_config c event_type scope_type scope_id ↔
     has_scope scope_type scope_id = false
     ∨ (scope_type = Some "guild" ∧ scope_id = Some "42"))
  ∧ (r ∉ _get_matching_rules_from_config c event_type (Some "channel") (Some "42"))
  ∧ (r ∉ _get_matching_rules_from_config c event_type (Some "guild") (Some "43"))
  ∧ (r ∈ _get_matching_rules_from_config c event_type None None).
Proof.
  intros Hin Hst Hsi Hen Hev.
  assert (Hmatch : ∀ st si,
    scope_match r st si = true ↔
    has_scope st si = false ∨ (st = Some "guild" ∧ si = Some "42")).
  { intros st si. destruct (has_scope st si) eqn:Hs.
    - apply has_scope_true in Hs as Hs'. destruct Hs' as (t & i & -> & -> & _ & _).
      rewrite scope_match_scoped by (done || by rewrite Hst).
      rewrite Hst, Hsi. cbn [eq_str str].
      rewrite andb_true_iff, !String.eqb_eq. split.
      + intros [<- <-]. by right.
      + intros [?|[[= <-] [= <-]]]; done.
    - rewrite scope_match_no_scope by done. split; [by left | done]. }
  assert (Hmem : ∀ st si,
    r ∈ _get_matching_rules_from_config c event_type st si ↔
    has_scope st si = false ∨ (st = Some "guild" ∧ si = Some "42")).
  { intros st si. rewrite elem_of_get_matching_rules, Hmatch. tauto. }
  split; [apply Hmem |]. rewrite !Hmem. repeat split.
  - intros [?|[[=] _]]. discriminate.
  - intros [?|[_ [=]]]. discriminate.
  - by left.
Qed.

Lemma guild_42_rule_witness :
  (Sample.rule_guild_42
     ∈ _get_matching_rules_from_config (Sample.config_of [Sample.rule_guild_42])
         "message" (Some "guild") (Some "42") ↔
     has_scope (Some "guild") (Some "42") = false
     ∨ (Some "guild" = Some "guild" ∧ Some "42" = Some "42"))
  ∧ (Sample.rule_guild_42
      ∉ _get_matching_rules_from_config (Sample.config_of [Sample.rule_guild_42])
          "message" (Some "channel") (Some "42"))
  ∧ (Sample.rule_guild_42
      ∉ _get_matching_rules_from_config (Sample.config_of [Sample.rule_guild_42])
          "message" (Some "guild") (Some "43"))
  ∧ (Sample.rule_guild_42
      ∈ _get_matching_rules_from_config (Sample.config_of [Sample.rule_guild_42])
          "message" None None).
Proof.
  apply (guild_42_rule (Sample.config_of [Sample.rule_guild_42]) Sample.rule_guild_42
           "message" (Some "guild") (Some "42")).
  - simpl. apply list_elem_of_here.
  - vm_compute. reflexivity.
  - vm_compute. reflexivity.
  - vm_compute. reflexivity.
  - vm_compute. reflexivity.
Defined.

(** Claim C5.  A rule whose [enabled] field is false is never in the list
    returned by [_get_matching_rules_from_config], whatever its other fields,
    and the returned rules keep the relative order of the configured
    sequence (the result is a subsequence of it). *)
Theorem disabled_skipped_order_kept (c : config) (r : rule) (event_type : string)
    (scope_type scope_id : option string) :
  r !! "enabled" = Some (VBool false) →
  (r ∉ _get_matching_rules_from_config c event_type scope_type scope_id)
  ∧ sublist (_get_matching_rules_from_config c event_type scope_type scope_id)
      (default [] (cfg_webhook_rules c)).
Proof.
  intros Hoff. split; [| apply get_matching_rules_sublist].
  rewrite elem_of_get_matching_rules. intros (_ & Hen & _).
  unfold rule_enabled, dict_get_default in Hen. rewrite Hoff in Hen. discriminate.
Qed.

Lemma disabled_skipped_order_kept_witness :
  (Sample.rule_disabled
    ∉ _get_matching_rules_from_config
        (Sample.config_of [Sample.rule_all; Sample.rule_disabled; Sample.rule_guild_42])
        "message" (Some "guild") (Some "42"))
  ∧ sublist
      (_get_matching_rules_from_config
         (Sample.config_of [Sample.rule_all; Sample.rule_disabled; Sample.rule_guild_42])
         "message" (Some "guild") (Some "42"))
      (default [] (cfg_webhook_rules
         (Sample.config_of [Sample.rule_all; Sample.rule_disabled; Sample.rule_guild_42]))).
Proof.
  apply (disabled_skipped_order_kept
           (Sample.config_of [Sample.rule_all; Sample.rule_disabled; Sample.rule_guild_42])
           Sample.rule_disabled "message" (Some "guild") (Some "42")).
  vm_compute. reflexivity.
Defined.

(** The configured order on an example: the disabled rule is dropped, the
    two others come back in their order. *)
Example matching_order_example :
  _get_matching_rules_from_config
    (Sample.config_of [Sample.rule_all; Sample.rule_disabled; Sample.rule_guild_42])
    "message" (Some "guild") (Some "42")
  = [Sample.rule_all; Sample.rule_guild_42].
Proof. vm_compute. reflexivity. Qed.

(** The names of the event types are not JSON texts, so a rule naming one
    of them as a scalar matches exactly that type. *)
Lemma event_match_plain_scalar (r : rule) (s event_type : string) :
  dict_get r "event_type" = VStr s →
  Json.loads s = None →
  event_match r event_type = String.eqb s event_type.
Proof. intros Hv Hl. unfold event_match. by rewrite Hv, Hl. Qed.

Example event_type_names_are_plain :
  Forall (λ name, Json.loads name = None) Sample.event_types.
Proof. repeat constructor. Qed.

(** A message in guild 100 against a rule for everything and a rule for the
    reactions of guild 100: only the first is returned. *)
Example message_in_guild_100 :
  derive_scope (<["guild_id" := VInt 100]> (<["channel_id" := VInt 7]> ∅))
  = (Some "guild", Some "100")
  ∧ _get_matching_rules_from_config
      (Sample.config_of [Sample.rule_all; Sample.rule_reactions_guild_100])
      "message" (Some "guild") (Some "100")
    = [Sample.rule_all].
Proof. split; vm_compute; reflexivity. Qed.

End MatcherClaims.

(** ** Delivery *)

(** Unfold the operations of the effect monad. *)
Ltac eff_unfold :=
  unfold mbind, mret, eff_bind, eff_ret, Eff.bind, Eff.ret, Eff.raise,
    Eff.try_except, Eff.emit, Eff.get, Eff.put, Eff.result_of, Eff.trace_of,
    Eff.state_of in *.

Section ForwarderFacts.
Import Py WebhookForwarder.
Context {W : Type} `{!Env W}.

Lemma forward_run_text (fw : forwarder) (c : client) (url : string)
    (rule_name : value) (event_type : string) (data : attrs) (w : W) :
  session fw = Some c →
  _forward_to_webhook_sync fw (VStr url) rule_name event_type data w
  = let body := payload event_type rule_name (utc_now_iso w).1 data in
    let res := (http_post c url body (utc_now_iso w).2).1 in
    (Return tt,
     [Post c url body res; outcome_record event_type rule_name res],
     (http_post c url body (utc_now_iso w).2).2).
Proof.
  intros Hs. unfold _forward_to_webhook_sync. rewrite Hs.
  unfold now, post, url_text, log, outcome_record. eff_unfold.
  destruct (utc_now_iso w) as [t w1]. simpl.
  destruct (http_post c url (payload event_type rule_name t data) w1)
    as [[status|e] w2]; simpl; [| done].
  by destruct (delivery_success status).
Qed.

Lemma posts_outcome_record (event_type : string) (rule_name : value)
    (res : completion Z) :
  posts [outcome_record event_type rule_name res] = [].
Proof.
  destruct res as [status|e]; simpl; [| done].
  by destruct (delivery_success status).
Qed.

Lemma posts_cons_post (c : client) (url : string) (body : gmap string value)
    (res : completion Z) (tr : list event) :
  posts (Post c url body res :: tr) = (c, url, body, res) :: posts tr.
Proof. done. Qed.

Lemma forward_requests (fw : forwarder) (webhook_url rule_name : value)
    (event_type : string) (data : attrs) (w : W) :
  Eff.result_of (_forward_to_webhook_sync fw webhook_url rule_name event_type data w)
  = Return tt
  ∧ requests (Eff.trace_of
       (_forward_to_webhook_sync fw webhook_url rule_name event_type data w))
    = target_request (session fw) webhook_url.
Proof.
  destruct (session fw) as [c|] eqn:Hs.
  - destruct webhook_url as [|b|n|url|l|d];
      try (unfold _forward_to_webhook_sync; rewrite Hs;
           unfold now, url_text, log; eff_unfold;
           destruct (utc_now_iso w) as [t w1]; by simpl).
    rewrite (forward_run_text fw c) by done. cbv zeta.
    unfold Eff.result_of, Eff.trace_of. cbn [fst snd]. split; [done |].
    unfold requests. rewrite posts_cons_post, posts_outcome_record. done.
  - unfold _forward_to_webhook_sync. rewrite Hs. by destruct webhook_url.
Qed.

End ForwarderFacts.

Section HandleFacts.
Import Py WebhookForwarder.
Context {W : Type} `{!Env W}.

Lemma requests_app (tr1 tr2 : list event) :
  requests (tr1 ++ tr2) = requests tr1 ++ requests tr2.
Proof. unfold requests, posts. by rewrite omap_app, fmap_app. Qed.

Lemma requests_log (lvl : level) (msg : message) (tr : list event) :
  requests (Log lvl msg :: tr) = requests tr.
Proof. done. Qed.

(** One turn of the loop: a [KeyError] when the rule lacks [name] or
    [webhook_url], the delivery otherwise; the attempt made does not depend
    on the answer. *)
Lemma forward_rule_run (fw : forwarder) (event_type : string) (data : attrs)
    (r : rule) (w : W) :
  let run := forward_rule fw event_type data r w in
  requests (Eff.trace_of run)
  = match r !! "name", r !! "webhook_url" with
    | Some _, Some url => target_request (session fw) url
    | _, _ => []
    end
  ∧ Eff.result_of run
    = match r !! "name", r !! "webhook_url" with
      | Some _, Some _ => Return tt
      | Some _, None => Raise (KeyError "webhook_url")
      | None, _ => Raise (KeyError "name")
      end.
Proof.
  unfold forward_rule, getitem, log.
  destruct (r !! "name") as [name|]; [| by destruct (r !! "webhook_url")].
  destruct (r !! "webhook_url") as [url|]; [| done].
  destruct (forward_requests fw url name event_type data w) as [Hres Hreq].
  eff_unfold. simpl.
  destruct (_forward_to_webhook_sync fw url name event_type data w)
    as [[res tr] w'] eqn:Hrun. simpl in *. subst res.
  by rewrite requests_log.
Qed.

Lemma fan_out_requests (fw : forwarder) (event_type : string) (data : attrs)
    (rules : list rule) (w : W) :
  requests (Eff.trace_of (Eff.for_each rules (forward_rule fw event_type data) w))
  = planned_requests (session fw) rules.
Proof.
  revert w. induction rules as [|r rest IH]; intros w; [done |].
  destruct (forward_rule_run fw event_type data r w) as [Hreq Hres].
  cbn [Eff.for_each planned_requests]. unfold Eff.bind.
  destruct (forward_rule fw event_type data r w) as [[res tr] w'] eqn:Hrun.
  unfold Eff.trace_of, Eff.result_of in Hreq, Hres. cbn [fst snd] in Hreq, Hres.
  destruct (r !! "name") as [name|], (r !! "webhook_url") as [url|];
    subst res; try done.
  specialize (IH w').
  destruct (Eff.for_each rest (forward_rule fw event_type data) w')
    as [[res' tr'] w''].
  unfold Eff.trace_of in *. cbn [fst snd] in *.
  by rewrite requests_app, Hreq, IH.
Qed.

Lemma handle_event_run (fw : forwarder) (event_type : string) (data : attrs) (w : W) :
  Eff.result_of (handle_event fw event_type data w) = Return tt
  ∧ requests (Eff.trace_of (handle_event fw event_type data w))
    = planned_requests (session fw) (matched_rules fw event_type data).
Proof.
  pose proof (fan_out_requests fw event_type data
                (matched_rules fw event_type data) w) as Hloop.
  unfold handle_event, handle_event_body, log. eff_unfold. simpl.
  destruct (Eff.for_each (matched_rules fw event_type data)
              (forward_rule fw event_type data) w) as [[[[]|e] tr] w'];
    simpl in *; [done |].
  split; [done |]. by rewrite !requests_log, requests_app, Hloop, app_nil_r.
Qed.
End HandleFacts.

Section ForwarderClaims.
Import Py WebhookForwarder.

Lemma payload_lookup (event_type : string) (rule_name : value) (t : string)
    (data : attrs) (key : string) :
  payload event_type rule_name t data !! key
  = match data !! key with
    | Some v => Some v
    | None => envelope event_type rule_name t !! key
    end.
Proof.
  unfold payload, dict_merge. rewrite lookup_union.
  destruct (data !! key) as [v|]; [| by rewrite (left_id None _)].
  by destruct (envelope event_type rule_name t !! key).
Qed.

(** Claim C2, as stated, fails: a message event carries a [timestamp]
    attribute (the creation time of the message), and that value, not the
    envelope's clock reading, is in the body posted. *)
Lemma payload_timestamp_counterexample :
  envelope "message" (VStr "all") Sample.clock !! "timestamp"
  = Some (VStr "2026-01-01T00:00:00+00:00")
  ∧ BotManager._build_message_data Sample.hello !! "timestamp"
    = Some (VStr "2024-05-01T12:00:00+00:00")
  ∧ (fun p => p.1.2 !! "timestamp") <$>
      posts (Eff.trace_of
        (_forward_to_webhook_sync (Env0 := Sample.scripted_env)
           (Sample.forwarder_of [Sample.rule_all])
           (VStr "https://hooks.example/all") (VStr "all") "message"
           (BotManager._build_message_data Sample.hello) []))
    = [Some (VStr "2024-05-01T12:00:00+00:00")].
Proof. repeat split; vm_compute; reflexivity. Qed.

(** Claim C2 (amended).  The body [_forward_to_webhook_sync] posts is the
    envelope overlaid with the event's attributes: for every key, the
    attribute's value when the attributes have the key (the attribute wins on
    collision), the envelope's value otherwise. *)
Theorem forwarded_body_lookup {W : Type} `{!Env W} (fw : forwarder) (c : client)
    (url : string) (rule_name : value) (event_type : string) (data : attrs)
    (w : W) (key : string) :
  session fw = Some c →
  ∃ body res,
    posts (Eff.trace_of
      (_forward_to_webhook_sync fw (VStr url) rule_name event_type data w))
    = [(c, url, body, res)]
    ∧ body !! key
      = match data !! key with
        | Some v => Some v
        | None => envelope event_type rule_name (utc_now_iso w).1 !! key
        end.
Proof.
  intros Hs. rewrite (forward_run_text fw c) by done. cbv zeta.
  unfold Eff.trace_of. cbn [fst snd].
  eexists _, _. rewrite posts_cons_post, posts_outcome_record.
  split; [reflexivity | apply payload_lookup].
Qed.

Lemma forwarded_body_lookup_witness :
  ∃ body res,
    posts (Eff.trace_of
      (_forward_to_webhook_sync (Env0 := Sample.scripted_env)
         (Sample.forwarder_of [Sample.rule_all])
         (VStr "https://hooks.example/all") (VStr "all") "message"
         (BotManager._build_message_data Sample.hello) []))
    = [(session_client, "https://hooks.example/all", body, res)]
    ∧ body !! "timestamp"
      = match BotManager._build_message_data Sample.hello !! "timestamp" with
        | Some v => Some v
        | None =>
            envelope "message" (VStr "all")
              (utc_now_iso (Env := Sample.scripted_env) []).1 !! "timestamp"
        end.
Proof.
  apply (forwarded_body_lookup (Env0 := Sample.scripted_env)
           (Sample.forwarder_of [Sample.rule_all]) session_client).
  reflexivity.
Defined.

(** Claim C6.  [handle_event] always returns to its caller, and the delivery
    attempts it makes are the same whatever the network answers: one per
    matched rule, in order (up to a rule that lacks [name] or [webhook_url]).
    A failed delivery therefore never removes a later attempt. *)
Theorem handle_event_never_raises_isolated {W1 W2 : Type}
    (E1 : Env W1) (E2 : Env W2) (fw : forwarder) (event_type : string)
    (data : attrs) (w1 : W1) (w2 : W2) :
  Eff.result_of (handle_event (Env0 := E1) fw event_type data w1) = Return tt
  ∧ requests (Eff.trace_of (handle_event (Env0 := E1) fw event_type data w1))
    = planned_requests (session fw) (matched_rules fw event_type data)
  ∧ requests (Eff.trace_of (handle_event (Env0 := E1) fw event_type data w1))
    = requests (Eff.trace_of (handle_event (Env0 := E2) fw event_type data w2)).
Proof.
  destruct (handle_event_run (Env0 := E1) fw event_type data w1) as [Hres Hreq].
  destruct (handle_event_run (Env0 := E2) fw event_type data w2) as [_ Hreq'].
  repeat split; [done | done | congruence].
Qed.

(** With a session, and rules that all name a textual URL, every matched
    rule gets its attempt. *)
Lemma planned_requests_all (c : client) (rules : list rule) :
  Forall (λ r, is_Some (r !! "name") ∧ ∃ url, r !! "webhook_url" = Some (VStr url)) rules →
  planned_requests (Some c) rules
  = (λ r, (c, str (dict_get r "webhook_url"))) <$> rules.
Proof.
  induction 1 as [|r rest ([name Hn] & url & Hu) _ IH]; [done |].
  cbn [planned_requests fmap list_fmap]. rewrite Hn, Hu. simpl.
  unfold dict_get. rewrite Hu. simpl. by rewrite IH.
Qed.

(** The first target times out, the second answers 204: both are tried, and
    the second is recorded as delivered. *)
Example fan_out_example :
  Eff.trace_of
    (handle_event (Env0 := Sample.scripted_env)
       (Sample.forwarder_of [Sample.rule_all; Sample.rule_guild_42]) "message"
       (BotManager._build_message_data Sample.hello)
       [Raise TransportError; Return 204%Z])
  = [Log INFO (MsgHandling "message");
     Log INFO (MsgScope (Some "guild") (Some "42"));
     Log INFO (MsgFound 2);
     Log INFO (MsgForwardingTo (VStr "all"));
     Post session_client "https://hooks.example/all"
       (payload "message" (VStr "all") Sample.clock
          (BotManager._build_message_data Sample.hello))
       (Raise TransportError);
     Log ERROR (MsgForwardError (VStr "all") TransportError);
     Log INFO (MsgForwardingTo (VStr "guild-42"));
     Post session_client "https://hooks.example/guild-42"
       (payload "message" (VStr "guild-42") Sample.clock
          (BotManager._build_message_data Sample.hello))
       (Return 204%Z);
     Log INFO (MsgForwarded "message" (VStr "guild-42"))].
Proof. vm_compute. reflexivity. Qed.

(** Claim C10.  [test_webhook_sync] returns true if and only if the test
    POST completes with status 204; it returns false for every other status
    (200 included) and for every exception, and never raises.  Event
    delivery counts both 200 and 204 as success. *)
Theorem test_webhook_sync_204 {W : Type} `{!Env W} (url : string) (w : W) :
  let res := (http_post test_client url (test_payload (utc_now_iso w).1)
                (utc_now_iso w).2).1 in
  Eff.result_of (test_webhook_sync url w)
  = Return (match res with
            | Return status => (status =? 204)%Z
            | Raise _ => false
            end)
  ∧ (Eff.result_of (test_webhook_sync url w) = Return true ↔ res = Return 204%Z)
  ∧ (∀ status, delivery_success status = true ↔ status = 200%Z ∨ status = 204%Z).
Proof.
  cbv zeta.
  assert (Hrun : Eff.result_of (test_webhook_sync url w)
    = Return (match (http_post test_client url (test_payload (utc_now_iso w).1)
                       (utc_now_iso w).2).1 with
              | Return status => (status =? 204)%Z
              | Raise _ => false
              end)).
  { unfold test_webhook_sync, now, post, log. eff_unfold.
    destruct (utc_now_iso w) as [t w1]. simpl.
    destruct (http_post test_client url (test_payload t) w1) as [[status|e] w2];
      by simpl. }
  split; [exact Hrun |]. split.
  - rewrite Hrun.
    destruct ((http_post test_client url _ _).1) as [status|e].
    + split.
      * intros [= Hd]. apply Z.eqb_eq in Hd. by subst.
      * intros [= ->]. done.
    + split; [intros [=] | intros [=]].
  - intros status. unfold delivery_success.
    rewrite orb_true_iff, !Z.eqb_eq. done.
Qed.

End ForwarderClaims.

(** ** Gateway callbacks *)

Section BotClaims.
Import BotManager.

(** Claim C7.  For a message whose author is a bot and for a reaction whose
    user is a bot, the callbacks return without invoking the event handler:
    whatever the handler is, nothing is traced and the state is unchanged, so
    nothing reaches a webhook. *)
Theorem bot_authored_events_dropped {S E : Type} (error_record : string → exn → E)
    (event_handler : option (@handler S E)) (m : message) (r : reaction)
    (u : user) (s : S) :
  user_bot (author m) = true →
  user_bot u = true →
  on_message error_record event_handler m s = (Return tt, [], s)
  ∧ on_reaction_add error_record event_handler r u s = (Return tt, [], s).
Proof.
  intros Hm Hu. unfold on_message, on_reaction_add. rewrite Hm, Hu.
  by destruct event_handler.
Qed.

Lemma bot_authored_events_dropped_witness :
  on_message (fun _ e => WebhookForwarder.Log ERROR (WebhookForwarder.MsgTestError e))
    (Some (WebhookForwarder.handle_event (Env0 := Sample.scripted_env)
             (Sample.forwarder_of [Sample.rule_all])))
    (Sample.hello_from Sample.robot) []
  = (Return tt, [], [])
  ∧ on_reaction_add (fun _ e => WebhookForwarder.Log ERROR (WebhookForwarder.MsgTestError e))
      (Some (WebhookForwarder.handle_event (Env0 := Sample.scripted_env)
               (Sample.forwarder_of [Sample.rule_all])))
      Sample.thumbs_up Sample.robot []
    = (Return tt, [], []).
Proof.
  apply (bot_authored_events_dropped
           (fun _ e => WebhookForwarder.Log ERROR (WebhookForwarder.MsgTestError e))
           (Some (WebhookForwarder.handle_event (Env0 := Sample.scripted_env)
                    (Sample.forwarder_of [Sample.rule_all])))
           (Sample.hello_from Sample.robot) Sample.thumbs_up Sample.robot []).
  - reflexivity.
  - reflexivity.
Defined.

(** The same message from a human author is handed to the handler. *)
Lemma human_message_dispatched {S E : Type} (error_record : string → exn → E)
    (h : @handler S E) (m : message) :
  user_bot (author m) = false →
  on_message error_record (Some h) m
  = dispatch error_record h "message" (_build_message_data m).
Proof. intros Hm. unfold on_message. by rewrite Hm. Qed.

Example human_message_posted :
  WebhookForwarder.requests (Eff.trace_of
    (on_message (fun _ e => WebhookForwarder.Log ERROR (WebhookForwarder.MsgTestError e))
       (Some (WebhookForwarder.handle_event (Env0 := Sample.scripted_env)
                (Sample.forwarder_of [Sample.rule_all])))
       Sample.hello []))
  = [(WebhookForwarder.session_client, "https://hooks.example/all")].
Proof. vm_compute. reflexivity. Qed.

End BotClaims.

(** ** Listener supervision *)

(** Normalise a run of the manager on a state given by its fields. *)
Ltac mgr_norm :=
  cbv beta iota zeta delta
    [ListenerManager.is_running ListenerManager.handle_alive ListenerManager._load_pid ListenerManager.parse_pid ListenerManager._is_process_running ListenerManager._remove_pid
     ListenerManager._save_pid ListenerManager.set_pid_file ListenerManager.set_process ListenerManager.poll ListenerManager.sleep ListenerManager.sys ListenerManager.kill ListenerManager.killpg ListenerManager.getpgid
     ListenerManager.spawn ListenerManager.log ListenerManager.signal_listener ListenerManager.start ListenerManager.stop ListenerManager.refused_call
     mbind mret eff_bind eff_ret Eff.bind Eff.ret Eff.raise Eff.try_except
     Eff.emit Eff.get Eff.put Eff.result_of Eff.trace_of Eff.state_of
     ListenerManager.process ListenerManager.pid_file ListenerManager.machine fst snd negb].


(** One case split of a normalised run: a call of the machine or a test on
    a variable by cases; a fault of the PID file is ruled out when a
    hypothesis says so. *)
Ltac mgr_case x := (is_var x; destruct x) || (destruct x eqn:?).

Ltac mgr_split :=
  match goal with
  | H : ∀ w, ListenerManager.pid_unlink_fault w = None
    |- context [ListenerManager.pid_unlink_fault ?a] => rewrite (H a)
  | H : ∀ text old w, ListenerManager.pid_write_fault text old w = None
    |- context [ListenerManager.pid_write_fault ?a ?b ?c] => rewrite (H a b c)
  | |- context [match ?x with _ => _ end] => is_var x; destruct x
  | |- context [if ?x then _ else _] => is_var x; destruct x
  | |- context [ListenerManager.popen_poll ?a ?b] =>
      mgr_case (ListenerManager.popen_poll a b)
  | |- context [ListenerManager.proc_entry_exists ?a ?b] =>
      mgr_case (ListenerManager.proc_entry_exists a b)
  | |- context [ListenerManager.os_kill ?a ?b ?c] =>
      mgr_case (ListenerManager.os_kill a b c)
  | |- context [ListenerManager.os_killpg ?a ?b ?c] =>
      mgr_case (ListenerManager.os_killpg a b c)
  | |- context [ListenerManager.os_getpgid ?a ?b] =>
      mgr_case (ListenerManager.os_getpgid a b)
  | |- context [ListenerManager.popen ?a] => mgr_case (ListenerManager.popen a)
  | |- context [ListenerManager.script_exists ?a] =>
      mgr_case (ListenerManager.script_exists a)
  | |- context [ListenerManager.pid_unlink_fault ?a] =>
      mgr_case (ListenerManager.pid_unlink_fault a)
  | |- context [ListenerManager.pid_write_fault ?a ?b ?c] =>
      mgr_case (ListenerManager.pid_write_fault a b c)
  | |- context [is_OSError ?a] => mgr_case (is_OSError a)
  | |- context [String.eqb (Py.strip ?a) EmptyString] =>
      mgr_case (String.eqb (Py.strip a) EmptyString)
  | |- context [Py.int_of_str ?a] => mgr_case (Py.int_of_str a)
  | |- context [@ListenerManager.os_name_nt ?a ?b] =>
      mgr_case (@ListenerManager.os_name_nt a b)
  end; mgr_norm.

Section ManagerFacts.
Import ListenerManager.
Context {W : Type} `{!OS W}.


(** What [_load_pid] returns: it never raises. *)
Lemma load_pid_run (st : state W) :
  Eff.result_of (_load_pid st)
  = Return (match pid_file st with
            | Some text =>
                if negb (String.eqb (Py.strip text) EmptyString)
                then Py.int_of_str (Py.strip text) else None
            | None => None
            end).
Proof.
  destruct st as [p [text|] w]; mgr_norm; [| done].
  destruct (String.eqb (Py.strip text) EmptyString); [done |].
  by destruct (Py.int_of_str (Py.strip text)).
Qed.

(** The probe does not touch the manager or the PID file, and sends no
    signal but the probe. *)
Lemma is_process_running_run (pid : Z) (st : state W) :
  ∃ res tr w,
    _is_process_running pid st = (res, tr, State (process st) (pid_file st) w)
    ∧ launches tr = [] ∧ terminations tr = [] ∧ refused_as_running tr = false.
Proof.
  destruct st as [p f w]. mgr_norm.
  destruct (proc_entry_exists pid w);
    [eexists _, _, _; repeat split; reflexivity |].
  destruct (os_kill pid SIG0 w) as [[[]|e] w'];
    [eexists _, _, _; repeat split; reflexivity |].
  destruct (is_OSError e); eexists _, _, _; repeat split; reflexivity.
Qed.

(** [is_running] launches nothing, asks no process to end, and does not
    log the refusal of [start]. *)
Lemma is_running_quiet (st : state W) :
  launches (Eff.trace_of (is_running st)) = []
  ∧ terminations (Eff.trace_of (is_running st)) = []
  ∧ refused_as_running (Eff.trace_of (is_running st)) = false.
Proof.
  destruct st as [p f w]; mgr_norm. repeat mgr_split; done.
Qed.


End ManagerFacts.

Section ManagerClaims.
Import ListenerManager.
Context {W : Type} `{!OS W}.


(** Property X20.  Whenever the [is_running] check they start with returns,
    the refusals return false without raising: [stop] on a listener that is
    not running ([is_running] answers false), and [start] on a listener that
    is running ([is_running] answers true) or whose script is missing
    (whatever [is_running] answers); they launch no process and ask no
    process to end. *)
Theorem refusals_return_false (why : refusal) (st : state W) :
  refusal_applies why st →
  Eff.result_of (refused_call why st) = Return false
  ∧ launches (Eff.trace_of (refused_call why st)) = []
  ∧ terminations (Eff.trace_of (refused_call why st)) = [].
Proof.
  intros Hwhy. destruct (is_running_quiet st) as (Hl & Ht & _).
  destruct why; unfold refused_call, refusal_applies in *;
    unfold start, stop, log; eff_unfold;
    destruct (is_running st) as [[res tr] st1]; cbn [fst snd] in *.
  - subst res. cbv beta iota zeta delta [negb fst snd].
    unfold launches, terminations in *. by rewrite !omap_app, Hl, Ht.
  - subst res. cbv beta iota zeta delta [negb fst snd].
    unfold launches, terminations in *. by rewrite !omap_app, Hl, Ht.
  - destruct Hwhy as [[[|] ->] Hscript]; cbv beta iota zeta delta [negb fst snd];
      [| rewrite Hscript; cbv beta iota zeta delta [negb fst snd]];
      unfold launches, terminations in *; by rewrite !omap_app, Hl, Ht.
Qed.

End ManagerClaims.

Section ManagerExamples.
Import ListenerManager.



Lemma refusals_return_false_witness :
  Eff.result_of
    (refused_call (OS0 := Sample.simple_os) StartAlreadyRunning Sample.running_state)
  = Return false
  ∧ launches (Eff.trace_of
      (refused_call (OS0 := Sample.simple_os) StartAlreadyRunning Sample.running_state))
    = []
  ∧ terminations (Eff.trace_of
      (refused_call (OS0 := Sample.simple_os) StartAlreadyRunning Sample.running_state))
    = [].
Proof.
  apply (refusals_return_false (OS0 := Sample.simple_os) StartAlreadyRunning
           Sample.running_state).
  vm_compute. reflexivity.
Defined.

(** The other two refusals, and the calls that are not refused, on the
    sample machine. *)
Example stop_when_idle :
  stop (OS0 := Sample.simple_os) Sample.idle_state
  = (Return false, [Log WARNING MsgNotRunning], Sample.idle_state).
Proof. vm_compute. reflexivity. Qed.

Example start_without_script :
  start (OS0 := Sample.simple_os) Sample.no_script_state
  = (Return false, [Log ERROR MsgScriptNotFound], Sample.no_script_state).
Proof. vm_compute. reflexivity. Qed.

Example start_when_idle :
  start (OS0 := Sample.simple_os) Sample.idle_state
  = (Return true,
     [Log INFO MsgStarting; Spawn (Return 100%Z); Log INFO (MsgStarted 100)],
     Sample.running_state).
Proof. vm_compute. reflexivity. Qed.

Example stop_when_running :
  stop (OS0 := Sample.simple_os) Sample.running_state
  = (Return true,
     [Log INFO (MsgStopping 100); KillGroup 100 SIGTERM (Return tt);
      Kill 100 SIG0 (Raise ProcessLookupError); Log INFO MsgStopped],
     State None None (Sample.Machine [] 101 true)).
Proof. vm_compute. reflexivity. Qed.

(** Calling [start] after [stop], and [is_running] after each. *)
Example start_then_running :
  Eff.result_of
    (is_running (OS0 := Sample.simple_os)
       (Eff.state_of (start (OS0 := Sample.simple_os) Sample.idle_state)))
  = Return true
  ∧ Eff.result_of
      (is_running (OS0 := Sample.simple_os)
         (Eff.state_of (stop (OS0 := Sample.simple_os) Sample.running_state)))
    = Return false.
Proof. split; vm_compute; reflexivity. Qed.

(** The probe catches the [OSError] family only: another exception leaves
    [is_running], and with it [start] and [stop]. *)
Example probe_exception_propagates :
  Eff.result_of (is_running (OS0 := Sample.overflow_os) Sample.oversized_pid_state)
  = Raise OverflowError
  ∧ Eff.result_of (stop (OS0 := Sample.overflow_os) Sample.oversized_pid_state)
    = Raise OverflowError.
Proof. split; vm_compute; reflexivity. Qed.

(** Claim C9, at the failing input.  No listener is running and the PID file
    holds a number that does not fit a pid: the probe raises
    [OverflowError], which [_is_process_running] does not catch and which
    reaches [is_running] outside the [try] of [stop] and of [start].  So
    [stop] raises instead of returning false, and so does [start], whether
    the listener script is there or not; nothing is launched. *)
Theorem refusals_raise_on_oversized_pid :
  Eff.result_of (stop (OS0 := Sample.overflow_os) Sample.oversized_pid_state)
  = Raise OverflowError
  ∧ Eff.result_of (start (OS0 := Sample.overflow_os) Sample.oversized_pid_state)
    = Raise OverflowError
  ∧ Eff.result_of
      (start (OS0 := Sample.overflow_os)
         (State None (Some "99999999999999999999") (Sample.Machine [] 100 false)))
    = Raise OverflowError
  ∧ launches
      (Eff.trace_of (start (OS0 := Sample.overflow_os) Sample.oversized_pid_state))
    = [].
Proof. repeat split; vm_compute; reflexivity. Qed.

End ManagerExamples.

(** ** The decimal text of a pid *)

Section DecimalFacts.
Import Py.

Lemma lstrip_no_ws (s : string) : no_ws s = true → lstrip s = s.
Proof.
  destruct s as [|c r]; simpl; [done |].
  rewrite andb_true_iff, negb_true_iff. by intros [-> _].
Qed.

Lemma rstrip_no_ws (s : string) : no_ws s = true → rstrip s = s.
Proof.
  induction s as [|c r IH]; simpl; [done |].
  rewrite andb_true_iff, negb_true_iff. intros [Hc Hr].
  rewrite (IH Hr), Hc. by destruct r.
Qed.

Lemma strip_no_ws (s : string) : no_ws s = true → strip s = s.
Proof.
  intros H. unfold strip. by rewrite (lstrip_no_ws s H), (rstrip_no_ws s H).
Qed.

Lemma uint_text_no_ws (u : Decimal.uint) :
  no_ws (NilEmpty.string_of_uint u) = true.
Proof. induction u; simpl; done. Qed.

(** [int()] on a signed text without white space around it. *)
Lemma int_of_str_signed (c : ascii) (r : string) :
  no_ws (String c r) = true →
  int_of_str (String c r)
  = if Ascii.eqb c "-" then Z.opp <$> int_digits false 0 r
    else if Ascii.eqb c "+" then int_digits false 0 r
    else int_digits false 0 (String c r).
Proof.
  intros H. unfold int_of_str. rewrite (strip_no_ws _ H).
  destruct c as [[] [] [] [] [] [] [] []]; reflexivity.
Qed.

Lemma int_digits_digit (after_digit : bool) (acc : Z) (c : ascii) (r : string) :
  is_digit c = true →
  int_digits after_digit acc (String c r) = int_digits true (10 * acc + digit_val c) r.
Proof. intros H. simpl. by rewrite H. Qed.

Lemma int_digits_acc (u : Decimal.uint) (acc : positive) :
  int_digits true (Z.pos acc) (NilEmpty.string_of_uint u)
  = Some (Z.pos (Pos.of_uint_acc u acc)).
Proof.
  revert acc. induction u as [|u IH|u IH|u IH|u IH|u IH|u IH|u IH|u IH|u IH|u IH];
    intros acc; [done | ..];
    cbn [NilEmpty.string_of_uint Pos.of_uint_acc];
    rewrite int_digits_digit by reflexivity; rewrite <- IH; f_equal;
    change (digit_val _) with (Z.of_N (N_of_ascii "0") - 48)%Z
      || (unfold digit_val; simpl N_of_ascii); lia.
Qed.

Lemma int_digits_uint (u : Decimal.uint) (after_digit : bool) :
  u ≠ Decimal.Nil ∨ after_digit = true →
  int_digits after_digit 0 (NilEmpty.string_of_uint u)
  = Some (Z.of_N (Pos.of_uint u)).
Proof.
  revert after_digit.
  induction u as [|u IH|u IH|u IH|u IH|u IH|u IH|u IH|u IH|u IH|u IH];
    intros b Hb;
    [ destruct Hb as [?| ->]; done
    | cbn [NilEmpty.string_of_uint Pos.of_uint];
      rewrite int_digits_digit by reflexivity; apply IH; by right
    | cbn [NilEmpty.string_of_uint Pos.of_uint];
      rewrite int_digits_digit by reflexivity; apply int_digits_acc .. ].
Qed.

Lemma uint_text_head (u : Decimal.uint) :
  u ≠ Decimal.Nil →
  ∃ c r, NilEmpty.string_of_uint u = String c r
         ∧ Ascii.eqb c "-" = false ∧ Ascii.eqb c "+" = false.
Proof. destruct u; [done | ..]; intros _; eexists _, _; by repeat split. Qed.

Lemma pos_text (p : positive) :
  NilZero.string_of_uint (Pos.to_uint p) = NilEmpty.string_of_uint (Pos.to_uint p).
Proof. pose proof (Unsigned.to_uint_nonnil p). by destruct (Pos.to_uint p). Qed.

(** [int(str(n)) == n] *)
Lemma int_of_str_of_Z (n : Z) : int_of_str (str_of_Z n) = Some n.
Proof.
  unfold str_of_Z. destruct n as [|p|p]; [done | ..]; simpl; rewrite pos_text.
  - pose proof (Unsigned.to_uint_nonnil p) as Hnil.
    destruct (uint_text_head _ Hnil) as (c & r & Hcr & Hm & Hp).
    pose proof (uint_text_no_ws (Pos.to_uint p)) as Hws. rewrite Hcr in Hws |- *.
    rewrite (int_of_str_signed c r Hws), Hm, Hp, <- Hcr.
    rewrite int_digits_uint by (left; apply Unsigned.to_uint_nonnil).
    by rewrite Unsigned.of_to.
  - rewrite int_of_str_signed by (simpl; apply uint_text_no_ws). simpl.
    rewrite int_digits_uint by (left; apply Unsigned.to_uint_nonnil).
    by rewrite Unsigned.of_to.
Qed.

Lemma str_of_Z_no_ws (n : Z) : no_ws (str_of_Z n) = true.
Proof.
  unfold str_of_Z. destruct n as [|p|p]; [done | ..]; simpl; rewrite pos_text;
    apply uint_text_no_ws.
Qed.

Lemma str_of_Z_nonempty (n : Z) : String.eqb (str_of_Z n) EmptyString = false.
Proof.
  unfold str_of_Z. destruct n as [|p|p]; [done | | done]. simpl.
  pose proof (Unsigned.to_uint_nonnil p). by destruct (Pos.to_uint p).
Qed.

Lemma str_of_Z_truthy (n : Z) : truthy_str (Some (str_of_Z n)) = true.
Proof. unfold truthy_str. by rewrite str_of_Z_nonempty. Qed.

End DecimalFacts.

(** ** The PID record and the log view *)

Section ManagerRecord.
Import ListenerManager.
Context {W : Type} `{!OS W}.

(** A PID file holding the decimal text of a pid loads as that pid. *)
Lemma load_pid_of_text (st : state W) (pid : Z) :
  pid_file st = Some (Py.str_of_Z pid) →
  Eff.result_of (_load_pid st) = Return (Some pid).
Proof.
  intros Hf. rewrite load_pid_run, Hf. unfold Eff.result_of. cbn [fst].
  rewrite (strip_no_ws _ (str_of_Z_no_ws pid)), str_of_Z_nonempty. cbn [negb].
  by rewrite int_of_str_of_Z.
Qed.

(** Property X11.  The PID record round-trips when the file operations
    succeed: whatever the manager held, [_load_pid] after [_save_pid pid]
    gives back [pid], for every integer (negative ones too), and [_load_pid]
    after [_remove_pid] gives [None]; neither saving nor removing touches
    the process object or the machine. *)
Theorem saved_pid_loads_back (pid : Z) (st : state W) :
  pid_write_fault (Py.str_of_Z pid) (pid_file st) (machine st) = None →
  pid_unlink_fault (machine st) = None →
  Eff.result_of (_load_pid (Eff.state_of (_save_pid pid st))) = Return (Some pid)
  ∧ Eff.result_of (_load_pid (Eff.state_of (_remove_pid st))) = Return None
  ∧ process (Eff.state_of (_save_pid pid st)) = process st
  ∧ machine (Eff.state_of (_save_pid pid st)) = machine st
  ∧ process (Eff.state_of (_remove_pid st)) = process st
  ∧ machine (Eff.state_of (_remove_pid st)) = machine st.
Proof.
  intros Hwrite Hunlink.
  assert (Hsave : Eff.state_of (_save_pid pid st)
                  = State (process st) (Some (Py.str_of_Z pid)) (machine st)).
  { destruct st as [p f w]. cbn [process pid_file machine] in *. mgr_norm.
    by rewrite Hwrite. }
  assert (Hremove : Eff.state_of (_remove_pid st)
                    = State (process st) None (machine st)).
  { destruct st as [p f w]. cbn [process pid_file machine] in *. mgr_norm.
    by rewrite Hunlink. }
  rewrite Hsave, Hremove. split; [by apply load_pid_of_text |].
  by rewrite load_pid_run.
Qed.

End ManagerRecord.

Section ManagerRecordExamples.
Import ListenerManager.

Lemma saved_pid_loads_back_witness :
  Eff.result_of
    (_load_pid (Eff.state_of (_save_pid (OS0 := Sample.simple_os) (-7) Sample.stale_state)))
  = Return (Some (-7)%Z)
  ∧ Eff.result_of
      (_load_pid (Eff.state_of (_remove_pid (OS0 := Sample.simple_os) Sample.stale_state)))
    = Return None
  ∧ process (Eff.state_of (_save_pid (OS0 := Sample.simple_os) (-7) Sample.stale_state))
    = process Sample.stale_state
  ∧ machine (Eff.state_of (_save_pid (OS0 := Sample.simple_os) (-7) Sample.stale_state))
    = machine Sample.stale_state
  ∧ process (Eff.state_of (_remove_pid (OS0 := Sample.simple_os) Sample.stale_state))
    = process Sample.stale_state
  ∧ machine (Eff.state_of (_remove_pid (OS0 := Sample.simple_os) Sample.stale_state))
    = machine Sample.stale_state.
Proof.
  apply (saved_pid_loads_back (OS0 := Sample.simple_os) (-7) Sample.stale_state).
  - reflexivity.
  - reflexivity.
Defined.

(** Where the file can be neither written nor removed, saving and removing
    log the failure and leave the record as it was. *)
Example failed_save_and_remove :
  _save_pid (OS0 := Sample.read_only_os) 100 Sample.stale_state
  = (Return tt, [Log ERROR (MsgSavePidError PermissionError)], Sample.stale_state)
  ∧ _remove_pid (OS0 := Sample.read_only_os) Sample.stale_state
    = (Return tt, [Log ERROR (MsgRemovePidError PermissionError)], Sample.stale_state).
Proof. split; vm_compute; reflexivity. Qed.

End ManagerRecordExamples.

Section Logs.
Import ListenerManager.

Lemma slice_from_tail {A : Type} (n : Z) (l : list A) :
  (0 < n)%Z → slice_from (- n) l = drop (length l - Z.to_nat n) l.
Proof.
  intros Hn. unfold slice_from.
  destruct (- n <? 0)%Z eqn:Hneg; [| apply Z.ltb_ge in Hneg; lia].
  f_equal. lia.
Qed.

(** Property X18.  When the log file is read, [get_logs lines] for
    [lines > 0] returns the last [lines] lines of the file (all of them when
    the file is shorter), newest first, joined without a separator; for
    [lines = 0] it returns the whole file, newest first, not the empty text:
    the slice [all_lines[-0:]] is the whole list.  Nothing is logged. *)
Theorem get_logs_tail (describe : exn → string) (all_lines : list string)
    (lines : Z) :
  (0 ≤ lines)%Z →
  get_logs describe (Some (Return all_lines)) lines
  = (join EmptyString
       (reverse (if (lines =? 0)%Z then all_lines
                 else drop (length all_lines - Z.to_nat lines) all_lines)),
     None).
Proof.
  intros Hn. unfold get_logs. destruct (lines =? 0)%Z eqn:H0.
  - apply Z.eqb_eq in H0 as ->. unfold slice_from. cbn [Z.opp Z.ltb Z.compare].
    by rewrite Z.min_l by lia.
  - apply Z.eqb_neq in H0. by rewrite slice_from_tail by lia.
Qed.

Lemma get_logs_tail_witness :
  get_logs (fun _ => "error") (Some (Return ["first"; "second"; "third"])) 2
  = ("thirdsecond", None).
Proof.
  apply (get_logs_tail (fun _ => "error") ["first"; "second"; "third"] 2). lia.
Defined.

End Logs.

(** ** Runs of the listener manager *)

Section ManagerLoop.
Import ListenerManager.
Context {W : Type} `{!OS W}.

(** The wait loop touches neither the manager nor the PID file; it launches
    nothing and asks no process to end. *)
Lemma wait_exit_run (n : nat) (pid : Z) (st : state W) :
  ∃ res tr w,
    wait_exit n pid st = (res, tr, State (process st) (pid_file st) w)
    ∧ launches tr = [] ∧ terminations tr = [].
Proof.
  revert st. induction n as [|n IH]; intros st.
  - destruct st as [p f w]. by eexists _, _, _.
  - cbn [wait_exit]. unfold mbind, eff_bind, Eff.bind.
    destruct (is_process_running_run pid st) as (res & tr & w & -> & Hl & Ht & _).
    destruct res as [[|]|e].
    + unfold sleep, sys. cbn [process pid_file machine].
      destruct (IH (State (process st) (pid_file st) (time_sleep 100 w)))
        as (res' & tr' & w' & Hrun & Hl' & Ht').
      cbn [process pid_file machine] in Hrun. rewrite Hrun.
      eexists _, _, _. split; [reflexivity |].
      unfold launches, terminations in *.
      by rewrite !omap_app, Hl, Ht, Hl', Ht'.
    + eexists _, _, _. split; [reflexivity |].
      unfold launches, terminations in *. by rewrite !omap_app, Hl, Ht.
    + by eexists _, _, _.
Qed.

End ManagerLoop.

(** One step of a normalised run: the wait loop by its frame lemma, anything
    else by cases. *)
Ltac mgr_step :=
  first
    [ match goal with
      | |- context [ListenerManager.wait_exit ?n ?p ?s] =>
          let H := fresh "Hwait" in
          destruct (wait_exit_run n p s) as (? & ? & ? & H & ? & ?);
          cbn [ListenerManager.process ListenerManager.pid_file
               ListenerManager.machine] in H;
          rewrite H; clear H
      end; mgr_norm
    | mgr_split ].

Section ManagerRuns.
Import ListenerManager.
Context {W : Type} `{!OS W}.

(** Property X12.  Whenever its first [is_running] check returns, [start]
    returns a Boolean (whatever the launch, the sleep or the second check
    do, nothing is raised); it launches at most one process and asks no
    process to end. *)
Theorem start_returns (st : state W) (running : bool) :
  Eff.result_of (is_running st) = Return running →
  (∃ started, Eff.result_of (start st) = Return started)
  ∧ (length (launches (Eff.trace_of (start st))) ≤ 1)%nat
  ∧ terminations (Eff.trace_of (start st)) = [].
Proof.
  destruct st as [p f w]. mgr_norm.
  repeat mgr_step.
  all: try (intros; discriminate).
  all: intros _; repeat split; try (by eexists); simpl; try lia.
Qed.


(** What [stop] leaves behind when [is_running] answered true. *)
Lemma stop_clears_record (st : state W) :
  Eff.result_of (is_running st) = Return true →
  (∃ stopped, Eff.result_of (stop st) = Return stopped)
  ∧ process (Eff.state_of (stop st)) = None
  ∧ launches (Eff.trace_of (stop st)) = [].
Proof.
  destruct st as [p f w]. mgr_norm.
  repeat mgr_step.
  all: try (intros; discriminate).
  all: intros _; repeat split; try reflexivity; try (by eexists).
  all: unfold launches in *; rewrite ?omap_app; simpl.
  all: match goal with
       | Hl : omap _ ?tr = [] |- context [omap _ ?tr] => by rewrite Hl
       end.
Qed.

Lemma stop_removes_file (st : state W) :
  (∀ w, pid_unlink_fault w = None) →
  Eff.result_of (is_running st) = Return true →
  pid_file (Eff.state_of (stop st)) = None.
Proof.
  intros Hunlink. destruct st as [p f w]. mgr_norm.
  repeat mgr_step.
  all: try (intros; discriminate).
  all: intros _; reflexivity.
Qed.

(** Property X14.  When [is_running] answers true, [stop] returns a Boolean
    and, whether it returns true or false (a signal that could not be sent
    included), the manager is left without a process object; [stop]
    launches nothing.  When removing the PID file does not fail, the
    manager is also left without a PID file, so that the next [is_running]
    answers false without asking the machine. *)
Theorem stop_forgets_listener (st : state W) :
  Eff.result_of (is_running st) = Return true →
  (∃ stopped, Eff.result_of (stop st) = Return stopped)
  ∧ process (Eff.state_of (stop st)) = None
  ∧ launches (Eff.trace_of (stop st)) = []
  ∧ ((∀ w, pid_unlink_fault w = None) →
     pid_file (Eff.state_of (stop st)) = None
     ∧ is_running (Eff.state_of (stop st))
       = (Return false, [], Eff.state_of (stop st))).
Proof.
  intros Hrun. destruct (stop_clears_record st Hrun) as (Hres & Hp & Hl).
  split; [done |]. split; [done |]. split; [done |].
  intros Hunlink. pose proof (stop_removes_file st Hunlink Hrun) as Hf.
  split; [done |].
  destruct (Eff.state_of (stop st)) as [p f w]. cbn [process pid_file] in Hp, Hf.
  subst p f. done.
Qed.

(** Property X15.  The signals with which a call of [stop] asks a process to
    end are: none; or one SIGTERM; or one SIGTERM followed by one SIGKILL.
    SIGKILL is never sent first, and no signal is sent twice. *)
Theorem stop_signal_order (st : state W) :
  ∃ g g', terminations (Eff.trace_of (stop st)) = []
          ∨ terminations (Eff.trace_of (stop st)) = [(g, SIGTERM)]
          ∨ terminations (Eff.trace_of (stop st)) = [(g, SIGTERM); (g', SIGKILL)].
Proof.
  destruct st as [p f w]. mgr_norm.
  repeat mgr_step.
  all: unfold terminations in *; rewrite ?omap_app; simpl.
  all: repeat match goal with
         | Ht : omap _ ?tr = [] |- context [omap _ ?tr] => rewrite Ht
         end; simpl.
  all: try (by exists 0%Z, 0%Z; left).
  all: try (eexists _, 0%Z; right; left; reflexivity).
  all: try (eexists _, _; right; right; reflexivity).
Qed.

(** [get_status] is normalised like the other calls. *)
Ltac mgr_more := unfold get_status; mgr_norm.

(** Property X17.  When [get_status] returns, its [is_running] field is the
    answer of [is_running], and its [pid] field is set exactly when that
    answer is true; [get_status] launches nothing and asks no process to
    end. *)
Theorem get_status_pid_iff_running (st : state W) (running : bool) (pid : option Z) :
  Eff.result_of (get_status st) = Return (running, pid) →
  Eff.result_of (is_running st) = Return running
  ∧ (is_Some pid ↔ running = true)
  ∧ launches (Eff.trace_of (get_status st)) = []
  ∧ terminations (Eff.trace_of (get_status st)) = [].
Proof.
  destruct st as [p f w]. mgr_more.
  repeat mgr_step.
  all: try (intros; discriminate).
  all: intros [= <- <-]; repeat split; try reflexivity.
  all: try (by intros [? ?]); try (by intros ?); by eexists.
Qed.

(** Where [stop] leaves the manager when the first [is_running] returns and
    removing the PID file does not fail: no process object, no usable PID
    file, nothing launched. *)
Lemma stop_leaves_no_record (st : state W) (running : bool) :
  (∀ w, pid_unlink_fault w = None) →
  Eff.result_of (is_running st) = Return running →
  (∃ stopped, Eff.result_of (stop st) = Return stopped)
  ∧ process (Eff.state_of (stop st)) = None
  ∧ Eff.result_of (_load_pid (Eff.state_of (stop st))) = Return None
  ∧ launches (Eff.trace_of (stop st)) = [].
Proof.
  intros Hunlink. destruct st as [p f w]. mgr_norm.
  repeat mgr_step.
  all: try (intros; discriminate).
  all: intros _; repeat split; try reflexivity; try (by eexists).
  all: unfold launches in *; rewrite ?omap_app; simpl.
  all: match goal with
       | Hl : omap _ ?tr = [] |- context [omap _ ?tr] => by rewrite Hl
       end.
Qed.

(** [start], run where there is no record, does not raise and launches at
    most one process. *)
Lemma start_without_record_returns (st : state W) :
  process st = None →
  Eff.result_of (_load_pid st) = Return None →
  (∃ started, Eff.result_of (start st) = Return started)
  ∧ (length (launches (Eff.trace_of (start st))) ≤ 1)%nat.
Proof.
  destruct st as [p f w]. cbn [process]. intros ->. mgr_norm.
  repeat mgr_step.
  all: try (intros; discriminate).
  all: intros _; split; [by eexists | simpl; lia].
Qed.

(** Property X16.  When removing the PID file does not fail, and the first
    [is_running] check (the one [stop] makes) returns, [restart] returns a
    Boolean: the [start] that follows [stop] finds no record of a listener,
    so nothing in it can raise; and [restart] launches at most one
    process. *)
Theorem restart_returns (st : state W) (running : bool) :
  (∀ w, pid_unlink_fault w = None) →
  Eff.result_of (is_running st) = Return running →
  (∃ started, Eff.result_of (restart st) = Return started)
  ∧ (length (launches (Eff.trace_of (restart st))) ≤ 1)%nat.
Proof.
  intros Hunlink Hrun.
  destruct (stop_leaves_no_record st running Hunlink Hrun)
    as ([stopped Hres] & Hp & Hf & Hl).
  unfold restart, log, sleep, sys. eff_unfold.
  destruct (stop st) as [[res tr] s1]. cbn [fst snd] in *. subst res.
  cbn [machine process pid_file].
  set (s2 := State (process s1) (pid_file s1) (time_sleep 1000 (machine s1))).
  assert (Hp2 : process s2 = None) by done.
  assert (Hf2 : Eff.result_of (_load_pid s2) = Return None).
  { change (Eff.result_of (_load_pid s1) = Return None) in Hf.
    rewrite load_pid_run in Hf |- *. exact Hf. }
  destruct (start_without_record_returns s2 Hp2 Hf2) as ([started Hst] & Hone).
  destruct (start s2) as [[res2 tr2] s3]. cbn [Eff.result_of Eff.trace_of fst snd] in *.
  unfold Eff.result_of, Eff.trace_of in *. cbn [fst snd] in *. subst res2.
  split; [by eexists |].
  unfold launches in *. cbn. rewrite !omap_app, Hl. cbn. done.
Qed.

End ManagerRuns.

Section ManagerRunExamples.
Import ListenerManager.

Lemma start_returns_witness :
  (∃ started,
     Eff.result_of (start (OS0 := Sample.simple_os) Sample.idle_state) = Return started)
  ∧ (length (launches (Eff.trace_of (start (OS0 := Sample.simple_os) Sample.idle_state)))
     ≤ 1)%nat
  ∧ terminations (Eff.trace_of (start (OS0 := Sample.simple_os) Sample.idle_state)) = [].
Proof.
  apply (start_returns (OS0 := Sample.simple_os) Sample.idle_state false).
  vm_compute. reflexivity.
Defined.


Lemma stop_forgets_listener_witness :
  (∃ stopped,
     Eff.result_of (stop (OS0 := Sample.simple_os) Sample.running_state)
     = Return stopped)
  ∧ process (Eff.state_of (stop (OS0 := Sample.simple_os) Sample.running_state)) = None
  ∧ launches (Eff.trace_of (stop (OS0 := Sample.simple_os) Sample.running_state)) = []
  ∧ ((∀ w, pid_unlink_fault (OS := Sample.simple_os) w = None) →
     pid_file (Eff.state_of (stop (OS0 := Sample.simple_os) Sample.running_state))
     = None
     ∧ is_running (OS0 := Sample.simple_os)
         (Eff.state_of (stop (OS0 := Sample.simple_os) Sample.running_state))
       = (Return false, [],
          Eff.state_of (stop (OS0 := Sample.simple_os) Sample.running_state))).
Proof.
  apply (stop_forgets_listener (OS0 := Sample.simple_os) Sample.running_state).
  vm_compute. reflexivity.
Defined.

Lemma restart_returns_witness :
  (∃ started,
     Eff.result_of (restart (OS0 := Sample.simple_os) Sample.running_state)
     = Return started)
  ∧ (length (launches
       (Eff.trace_of (restart (OS0 := Sample.simple_os) Sample.running_state)))
     ≤ 1)%nat.
Proof.
  apply (restart_returns (OS0 := Sample.simple_os) Sample.running_state true).
  - intros w. reflexivity.
  - vm_compute. reflexivity.
Defined.

(** Where the PID file cannot be removed, [stop] ends the listener and
    returns true, but the record stays: the next [is_running] has to probe
    the machine again. *)
Example stop_with_failing_removal :
  stop (OS0 := Sample.read_only_os) Sample.running_state
  = (Return true,
     [Log INFO (MsgStopping 100); KillGroup 100 SIGTERM (Return tt);
      Kill 100 SIG0 (Raise ProcessLookupError); Log INFO MsgStopped;
      Log ERROR (MsgRemovePidError PermissionError)],
     State None (Some "100") (Sample.Machine [] 101 true)).
Proof. vm_compute. reflexivity. Qed.

Lemma get_status_pid_iff_running_witness :
  Eff.result_of (is_running (OS0 := Sample.simple_os) Sample.running_state)
  = Return true
  ∧ (is_Some (Some 100%Z) ↔ true = true)
  ∧ launches (Eff.trace_of (get_status (OS0 := Sample.simple_os) Sample.running_state))
    = []
  ∧ terminations
      (Eff.trace_of (get_status (OS0 := Sample.simple_os) Sample.running_state))
    = [].
Proof.
  apply (get_status_pid_iff_running (OS0 := Sample.simple_os) Sample.running_state
           true (Some 100%Z)).
  vm_compute. reflexivity.
Defined.

(** A restart of the running sample listener: the old child is ended, a new
    one is launched and recorded. *)
Example restart_when_running :
  restart (OS0 := Sample.simple_os) Sample.running_state
  = (Return true,
     [Log INFO MsgRestarting;
      Log INFO (MsgStopping 100); KillGroup 100 SIGTERM (Return tt);
      Kill 100 SIG0 (Raise ProcessLookupError); Log INFO MsgStopped;
      Log INFO MsgStarting; Spawn (Return 101%Z); Log INFO (MsgStarted 101)],
     State (Some 101%Z) (Some "101") (Sample.Machine [101%Z] 102 true)).
Proof. vm_compute. reflexivity. Qed.

End ManagerRunExamples.

(** ** The matcher and the configuration queries *)

Section MatcherMore.
Import Py WebhookForwarder.

Lemma matching_rules_filter (rules : list rule) (event_type : string)
    (scope_type scope_id : option string) :
  matching_rules rules event_type scope_type scope_id
  = List.filter (λ r, event_match r event_type && scope_match r scope_type scope_id)
      (List.filter rule_enabled rules).
Proof.
  induction rules as [|r rest IH]; [done |]. cbn [matching_rules List.filter].
  destruct (rule_enabled r); cbn [negb List.filter]; [| done].
  by destruct (event_match r event_type && scope_match r scope_type scope_id);
    rewrite IH.
Qed.

(** Property X2.  The matcher and the configuration query agree on which
    rules are enabled: the rules [_get_matching_rules_from_config] returns
    are those of [get_webhook_rules(enabled_only=True)] that pass the event
    and scope tests, in the same order; and the enabled rules are a
    subsequence of [get_webhook_rules()]. *)
Theorem matcher_filters_enabled_rules (c : config) (event_type : string)
    (scope_type scope_id : option string) :
  _get_matching_rules_from_config c event_type scope_type scope_id
  = List.filter (λ r, event_match r event_type && scope_match r scope_type scope_id)
      (ConfigManager.get_webhook_rules c true)
  ∧ sublist (ConfigManager.get_webhook_rules c true)
      (ConfigManager.get_webhook_rules c false).
Proof.
  unfold _get_matching_rules_from_config, ConfigManager.get_webhook_rules,
    config_truthy. split.
  - destruct c as [b [rules|]]; cbn [cfg_bot cfg_webhook_rules default].
    + destruct b; cbn [negb]; apply matching_rules_filter.
    + by destruct b.
  - induction (default [] (cfg_webhook_rules c)) as [|r rest IH];
      [constructor |]. cbn [List.filter].
    destruct (truthy _); [by apply sublist_skip | by apply sublist_cons].
Qed.

Lemma matching_rules_scope_monotone (rules : list rule) (event_type : string)
    (scope_type scope_id : option string) :
  sublist (matching_rules rules event_type scope_type scope_id)
    (matching_rules rules event_type None None).
Proof.
  induction rules as [|r rest IH]; [constructor |]. cbn [matching_rules].
  destruct (negb (rule_enabled r)); [done |].
  rewrite (scope_match_no_scope r None None) by done. rewrite andb_true_r.
  destruct (event_match r event_type); cbn [andb]; [| done].
  destruct (scope_match r scope_type scope_id);
    [by apply sublist_skip | by apply sublist_cons].
Qed.

(** Property X3.  Giving an event a scope can only remove rules: the rules
    matched for an event with any scope are a subsequence of the rules
    matched for the same event type without a scope. *)
Theorem scoped_event_subset_of_unscoped (c : config) (event_type : string)
    (scope_type scope_id : option string) :
  sublist (_get_matching_rules_from_config c event_type scope_type scope_id)
    (_get_matching_rules_from_config c event_type None None).
Proof.
  unfold _get_matching_rules_from_config.
  destruct (negb (config_truthy c)); [constructor |].
  apply matching_rules_scope_monotone.
Qed.

End MatcherMore.

Section ListenerSetup.
Import Py WebhookForwarder ConfigManager DiscordListener.

(** Property X1.  [initialize] succeeds exactly when the [bot] entry of the
    configuration is a dictionary whose [token] is truthy and whose
    [enabled] is truthy or absent; it then hands the token to the bot
    manager and installs a started forwarder over the same configuration.
    In particular the forwarder's own check for an empty configuration never
    fails inside [initialize]. *)
Theorem initialize_succeeds_iff (c : config) (l : listener) :
  initialize c = Return l ↔
  ∃ d, cfg_bot c = Some (VDict d)
       ∧ truthy (assoc_get d "token" VNone) = true
       ∧ truthy (assoc_get d "enabled" (VBool true)) = true
       ∧ l = Listener (assoc_get d "token" VNone)
               (Forwarder c (Some (Client 30 10))).
Proof.
  unfold initialize, get_bot_token, is_bot_enabled, bot_get, __init__,
    config_truthy, start.
  destruct c as [[b|] rules]; cbn [cfg_bot cfg_webhook_rules].
  - destruct b as [| | | | |d];
      try (split; [discriminate | intros (? & [=] & _)]).
    cbn [mbind completion_bind].
    destruct (truthy (assoc_get d "token" VNone)) eqn:Ht; cbn [negb].
    + destruct (truthy (assoc_get d "enabled" (VBool true))) eqn:He; cbn [negb].
      * cbn. split.
        -- intros [= <-]. by exists d.
        -- intros (d' & [= <-] & _ & _ & ->). done.
      * split; [discriminate | intros (d' & [= <-] & _ & He' & _); congruence].
    + split; [discriminate | intros (d' & [= <-] & Ht' & _); congruence].
  - cbn. split; [discriminate | intros (? & [=] & _)].
Qed.

(** A configuration with a token and no [enabled] key is accepted; one whose
    bot is disabled, or whose token is empty, is refused. *)
Example initialize_samples :
  initialize (Config (Some (VDict [("token", VStr "secret")])) None)
  = Return (Listener (VStr "secret")
              (Forwarder (Config (Some (VDict [("token", VStr "secret")])) None)
                 (Some (Client 30 10))))
  ∧ initialize (Config (Some (VDict [("token", VStr "secret");
                                      ("enabled", VBool false)])) None)
    = Raise ValueError
  ∧ initialize (Config (Some (VDict [("token", VStr EmptyString)])) None)
    = Raise ValueError
  ∧ initialize (Config None (Some [Sample.rule_all])) = Raise ValueError.
Proof. repeat split. Qed.

End ListenerSetup.

(** ** A rule whose [event_type] is the JSON text of a list *)

Section ListText.
Import Json.
#[local] Open Scope nat_scope.

Lemma append_cons (x : ascii) (a b : string) :
  String x a +:+ b = String x (a +:+ b).
Proof. reflexivity. Qed.

Lemma append_assoc (a b c : string) : (a +:+ b) +:+ c = a +:+ (b +:+ c).
Proof.
  induction a as [|x a IH]; [done |]. by rewrite !append_cons, IH.
Qed.

Lemma append_length (a b : string) :
  String.length (a +:+ b) = String.length a + String.length b.
Proof.
  induction a as [|x a IH]; [done |]. rewrite append_cons. simpl. by rewrite IH.
Qed.

Lemma list_text_items (n : string) (names : list string) :
  join ", " (quoted <$> (n :: names)) +:+ "]"
  = String dquote (n +:+ String dquote (items_tail names)).
Proof.
  revert n. induction names as [|n' rest IH]; intros n.
  - change (join ", " (quoted <$> [n])) with (quoted n).
    unfold quoted. by rewrite append_cons, append_assoc.
  - change (join ", " (quoted <$> n :: n' :: rest))
      with (quoted n +:+ ", " +:+ join ", " (quoted <$> (n' :: rest))).
    rewrite !append_assoc, IH. unfold quoted.
    by rewrite append_cons, append_assoc.
Qed.

Lemma scanstring_plain (s rest : string) :
  plain s = true → scanstring (s +:+ String dquote rest) = Some (s, rest).
Proof.
  induction s as [|c r IH]; intros Hp.
  - reflexivity.
  - cbn [plain] in Hp. apply andb_true_iff in Hp as [Hc Hr].
    unfold plain_char in Hc.
    rewrite !andb_true_iff, !negb_true_iff, N.leb_le in Hc.
    destruct Hc as [[[Hlo _] Hq] Hb].
    assert (Hctl : (N_of_ascii c <? 32)%N = false) by (apply N.ltb_ge; lia).
    change ((String c r) +:+ String dquote rest)
      with (String c (r +:+ String dquote rest)).
    cbn [scanstring]. rewrite Hq, Hctl, Hb. cbv iota. by rewrite (IH Hr).
Qed.

Lemma items_tail_length (names : list string) :
  length names ≤ String.length (items_tail names).
Proof.
  induction names as [|n rest IH]; simpl; [lia |].
  rewrite append_length. simpl. lia.
Qed.

Lemma array_items_step (fuel : nat) (s : string) (acc : list json) :
  array_items (S fuel) s acc
  = match scan_once fuel s with
    | Parsed v rest =>
        match skip_ws rest with
        | EmptyString => Malformed
        | String d r1 =>
            if Ascii.eqb d "]" then Parsed (JArr (rev (v :: acc))) r1
            else if Ascii.eqb d "," then array_items fuel (skip_ws r1) (v :: acc)
            else Malformed
        end
    | Malformed => Malformed
    | OutOfFuel => OutOfFuel
    end.
Proof. reflexivity. Qed.

Lemma scan_once_string (fuel : nat) (r : string) :
  scan_once (S fuel) (String dquote r)
  = match scanstring r with
    | Some (t, rest) => Parsed (JStr t) rest
    | None => Malformed
    end.
Proof. reflexivity. Qed.

Lemma array_items_names (names : list string) :
  ∀ (n : string) (acc : list json) (fuel : nat),
    plain n = true → Forall (λ s, plain s = true) names →
    length names + 2 ≤ fuel →
    array_items fuel (String dquote (n +:+ String dquote (items_tail names))) acc
    = Parsed (JArr (rev acc ++ JStr n :: (JStr <$> names))) EmptyString.
Proof.
  induction names as [|n' rest IH]; intros n acc fuel Hn Hall Hfuel.
  - destruct fuel as [|[|fuel]]; [lia | simpl in Hfuel; lia |].
    rewrite array_items_step, scan_once_string, (scanstring_plain n _ Hn).
    reflexivity.
  - destruct fuel as [|[|fuel]]; [lia | simpl in Hfuel; lia |].
    apply Forall_cons in Hall as [Hn' Hrest].
    rewrite array_items_step, scan_once_string, (scanstring_plain n _ Hn).
    cbn [items_tail skip_ws]. change (is_ws ",") with false. cbv iota.
    change (Ascii.eqb "," "]") with false. change (Ascii.eqb "," ",") with true.
    cbv iota. cbn [skip_ws]. change (is_ws " ") with true. cbv iota.
    cbn [skip_ws]. change (is_ws dquote) with false. cbv iota.
    rewrite (IH n' (JStr n :: acc) (S fuel) Hn' Hrest) by (simpl in *; lia).
    simpl. by rewrite <- app_assoc.
Qed.

(** The decoder reads the text of a list of plain names back as that list. *)
Lemma loads_list_text (names : list string) :
  Forall (λ s, plain s = true) names →
  loads (json_list_text names) = Some (JArr (JStr <$> names)).
Proof.
  intros Hall. unfold json_list_text. destruct names as [|n rest].
  - reflexivity.
  - apply Forall_cons in Hall as [Hn Hrest].
    change ("[" +:+ join ", " (quoted <$> n :: rest) +:+ "]")
      with (String "[" (join ", " (quoted <$> n :: rest) +:+ "]")).
    rewrite list_text_items.
    unfold loads. cbn [skip_ws]. change (is_ws "[") with false. cbv iota.
    unfold fuel_for.
    set (body := String dquote (n +:+ String dquote (items_tail rest))).
    assert (Hlen : length rest + 2 ≤ 2 * String.length (String "[" body) + 1).
    { pose proof (items_tail_length rest). subst body. cbn [String.length].
      rewrite append_length. cbn [String.length]. lia. }
    replace (2 * String.length (String "[" body) + 2)
      with (S (2 * String.length (String "[" body) + 1)) by lia.
    cbn [scan_once]. change (Ascii.eqb "[" dquote) with false.
    change (Ascii.eqb "[" "[") with true. cbv iota.
    subst body. cbn [skip_ws]. change (is_ws dquote) with false. cbv iota.
    change (Ascii.eqb dquote "]") with false. cbv iota.
    rewrite (array_items_names rest n [] _ Hn Hrest Hlen). reflexivity.
Qed.

End ListText.

Section ListTextRule.
Import Py WebhookForwarder.

(** Property X4.  A rule whose [event_type] is a string holding the JSON
    text of a list of names (printable ASCII, no double quote, no backslash)
    passes the event-type test for exactly the event types in that list: the
    text is decoded, never compared with the incoming type. *)
Theorem json_list_rule_matches_members (r : rule) (names : list string)
    (event_type : string) :
  dict_get r "event_type" = VStr (json_list_text names) →
  Forall (λ s, plain s = true) names →
  (event_match r event_type = true ↔ event_type ∈ names).
Proof.
  intros Hv Hall. unfold event_match. rewrite Hv, (loads_list_text names Hall).
  rewrite json_str_in_elem, list_elem_of_fmap. split.
  - intros (s & [= ->] & Hin). done.
  - intros Hin. by exists event_type.
Qed.

Lemma json_list_rule_matches_members_witness :
  event_match
    (Sample.make_rule "two" true (VStr (json_list_text ["message"; "reaction_add"]))
       VNone VNone)
    "reaction_add" = true
  ↔ "reaction_add" ∈ ["message"; "reaction_add"].
Proof.
  apply (json_list_rule_matches_members
           (Sample.make_rule "two" true
              (VStr (json_list_text ["message"; "reaction_add"])) VNone VNone)
           ["message"; "reaction_add"] "reaction_add").
  - vm_compute. reflexivity.
  - repeat (apply Forall_cons; split; [reflexivity |]). exact (List.Forall_nil _).
Defined.

End ListTextRule.

(** ** The gateway callbacks and the forwarder together *)

Section GatewayFacts.
Import Py WebhookForwarder BotManager.

(** The lookups [handle_event] makes in the dictionaries the callbacks
    build. *)
Lemma message_scope (m : message) :
  derive_scope (_build_message_data m)
  = match message_guild m with
    | Some g =>
        if (guild_id g =? 0)%Z
        then (Some "channel", Some (str_of_Z (channel_id (message_channel m))))
        else (Some "guild", Some (str_of_Z (guild_id g)))
    | None => (Some "channel", Some (str_of_Z (channel_id (message_channel m))))
    end.
Proof.
  unfold derive_scope.
  assert (Hg : _build_message_data m !! "guild_id"
               = Some (opt_value (fun g => VInt (guild_id g)) (message_guild m)))
    by (vm_compute; reflexivity).
  assert (Hc : _build_message_data m !! "channel_id"
               = Some (VInt (channel_id (message_channel m))))
    by (vm_compute; reflexivity).
  rewrite Hg, Hc. destruct (message_guild m) as [g'|]; [| done].
  cbn [opt_value truthy str repr]. by destruct (guild_id g' =? 0)%Z.
Qed.

Lemma reaction_scope (r : reaction) (u : user) :
  derive_scope (_build_reaction_data r u)
  = match message_guild (reaction_message r) with
    | Some g =>
        if (guild_id g =? 0)%Z
        then (Some "channel",
              Some (str_of_Z (channel_id (message_channel (reaction_message r)))))
        else (Some "guild", Some (str_of_Z (guild_id g)))
    | None =>
        (Some "channel",
         Some (str_of_Z (channel_id (message_channel (reaction_message r)))))
    end.
Proof.
  unfold derive_scope.
  assert (Hg : _build_reaction_data r u !! "guild_id"
               = Some (opt_value (fun g => VInt (guild_id g))
                         (message_guild (reaction_message r))))
    by (vm_compute; reflexivity).
  assert (Hc : _build_reaction_data r u !! "channel_id"
               = Some (VInt (channel_id (message_channel (reaction_message r)))))
    by (vm_compute; reflexivity).
  rewrite Hg, Hc. destruct (message_guild (reaction_message r)) as [g'|]; [| done].
  cbn [opt_value truthy str repr]. by destruct (guild_id g' =? 0)%Z.
Qed.

Lemma member_scope (mb : member) (include_joined_at : bool) :
  derive_scope (_build_member_data mb include_joined_at)
  = (if (guild_id (member_guild mb) =? 0)%Z then (None, None)
     else (Some "guild", Some (str_of_Z (guild_id (member_guild mb))))).
Proof.
  unfold derive_scope.
  assert (Hg : _build_member_data mb include_joined_at !! "guild_id"
               = Some (VInt (guild_id (member_guild mb))))
    by (destruct include_joined_at; vm_compute; reflexivity).
  assert (Hc : _build_member_data mb include_joined_at !! "channel_id" = None)
    by (destruct include_joined_at; vm_compute; reflexivity).
  rewrite Hg, Hc. cbn [truthy str repr].
  by destruct (guild_id (member_guild mb) =? 0)%Z.
Qed.

Lemma channel_scope (c : channel) (g : guild) :
  derive_scope (_build_channel_data c g)
  = (if (guild_id g =? 0)%Z then (Some "channel", Some (str_of_Z (channel_id c)))
     else (Some "guild", Some (str_of_Z (guild_id g)))).
Proof.
  unfold derive_scope.
  assert (Hg : _build_channel_data c g !! "guild_id" = Some (VInt (guild_id g)))
    by (vm_compute; reflexivity).
  assert (Hc : _build_channel_data c g !! "channel_id" = Some (VInt (channel_id c)))
    by (vm_compute; reflexivity).
  rewrite Hg, Hc. cbn [truthy str repr]. by destruct (guild_id g =? 0)%Z.
Qed.

End GatewayFacts.

Section GatewayProperties.
Import Py WebhookForwarder BotManager.

(** Property X7.  Each of the six gateway callbacks returns normally,
    whatever the event handler does (raising included) and whether or not a
    handler is set. *)
Theorem callbacks_never_raise {S E : Type} (error_record : string → exn → E)
    (event_handler : option (@handler S E)) (m : message) (mb : member)
    (r : reaction) (u : user) (c : channel) (g : guild) (s : S) :
  Eff.result_of (on_message error_record event_handler m s) = Return tt
  ∧ Eff.result_of (on_member_join error_record event_handler mb s) = Return tt
  ∧ Eff.result_of (on_member_remove error_record event_handler mb s) = Return tt
  ∧ Eff.result_of (on_reaction_add error_record event_handler r u s) = Return tt
  ∧ Eff.result_of (on_guild_channel_create error_record event_handler c g s) = Return tt
  ∧ Eff.result_of (on_guild_channel_delete error_record event_handler c g s) = Return tt.
Proof.
  assert (Hd : ∀ (h : @handler S E) event_type data,
    Eff.result_of (dispatch error_record h event_type data s) = Return tt).
  { intros h event_type data. unfold dispatch. eff_unfold.
    by destruct (h event_type data s) as [[[[]|e] tr] s']. }
  unfold on_message, on_member_join, on_member_remove, on_reaction_add,
    on_guild_channel_create, on_guild_channel_delete.
  destruct event_handler as [h|]; [| done].
  destruct (negb (user_bot (author m))), (negb (user_bot u)); repeat split;
    solve [apply Hd | done].
Qed.

(** Property X5.  The scope [handle_event] derives from the data the
    callbacks build: a message or a reaction in a guild (with a nonzero id)
    is scoped to the guild, never to its channel; outside a guild it is
    scoped to the channel; a member event is scoped to the guild and has no
    scope at all when the guild id is zero; a channel event is scoped to the
    guild.  The scope id is the decimal text of the numeric id. *)
Theorem gateway_event_scope (m : message) (r : reaction) (u : user) (mb : member)
    (include_joined_at : bool) (c : channel) (g : guild) :
  derive_scope (_build_message_data m)
  = match message_guild m with
    | Some g =>
        if (guild_id g =? 0)%Z
        then (Some "channel", Some (str_of_Z (channel_id (message_channel m))))
        else (Some "guild", Some (str_of_Z (guild_id g)))
    | None => (Some "channel", Some (str_of_Z (channel_id (message_channel m))))
    end
  ∧ derive_scope (_build_reaction_data r u)
    = match message_guild (reaction_message r) with
      | Some g =>
          if (guild_id g =? 0)%Z
          then (Some "channel",
                Some (str_of_Z (channel_id (message_channel (reaction_message r)))))
          else (Some "guild", Some (str_of_Z (guild_id g)))
      | None =>
          (Some "channel",
           Some (str_of_Z (channel_id (message_channel (reaction_message r)))))
      end
  ∧ derive_scope (_build_member_data mb include_joined_at)
    = (if (guild_id (member_guild mb) =? 0)%Z then (None, None)
       else (Some "guild", Some (str_of_Z (guild_id (member_guild mb)))))
  ∧ derive_scope (_build_channel_data c g)
    = (if (guild_id g =? 0)%Z then (Some "channel", Some (str_of_Z (channel_id c)))
       else (Some "guild", Some (str_of_Z (guild_id g)))).
Proof.
  repeat split;
    [apply message_scope | apply reaction_scope | apply member_scope
    | apply channel_scope].
Qed.

(** Property X6.  A rule whose [scope_type] is [channel] is never matched by
    a message posted in a guild (whatever the rule's [scope_id], the
    message's own channel included), and a rule whose [scope_type] is
    [guild] is never matched by a message outside a guild. *)
Theorem message_rule_of_other_kind (fw : forwarder) (m : message) (r : rule) :
  (∃ g, message_guild m = Some g ∧ (guild_id g =? 0)%Z = false
        ∧ dict_get r "scope_type" = VStr "channel")
  ∨ (message_guild m = None ∧ dict_get r "scope_type" = VStr "guild") →
  r ∉ matched_rules fw "message" (_build_message_data m).
Proof.
  intros Hkind. unfold matched_rules.
  pose proof (message_scope m) as Hscope.
  rewrite elem_of_get_matching_rules. intros (_ & _ & _ & Hsc).
  destruct Hkind as [(g & Hg & Hid & Hst)|[Hg Hst]];
    rewrite Hscope, Hg, ?Hid in Hsc; cbn [fst snd] in Hsc;
    unfold scope_match, has_scope in Hsc;
    rewrite str_of_Z_truthy, Hst in Hsc; discriminate Hsc.
Qed.

Lemma message_rule_of_other_kind_witness :
  Sample.make_rule "general" true VNone (VStr "channel") (VStr "7")
  ∉ matched_rules
      (Sample.forwarder_of
         [Sample.make_rule "general" true VNone (VStr "channel") (VStr "7")])
      "message" (_build_message_data Sample.hello).
Proof.
  apply message_rule_of_other_kind. left. exists (Guild "home" 42).
  repeat split; vm_compute; reflexivity.
Defined.

End GatewayProperties.

(** ** The forwarder over its lifetime *)

Section ForwarderFanOut.
Import Py WebhookForwarder.

Lemma planned_requests_no_session (rules : list rule) :
  planned_requests None rules = [].
Proof.
  induction rules as [|r rest IH]; [done |]. cbn [planned_requests].
  destruct (r !! "name"), (r !! "webhook_url") as [[]|]; done.
Qed.

(** The attempts over rules that all name a textual URL, followed by
    others. *)
Lemma planned_requests_app (c : client) (pre rest : list rule) :
  Forall (λ r, is_Some (r !! "name") ∧ ∃ url, r !! "webhook_url" = Some (VStr url))
    pre →
  planned_requests (Some c) (pre ++ rest)
  = ((λ r, (c, str (dict_get r "webhook_url"))) <$> pre)
    ++ planned_requests (Some c) rest.
Proof.
  induction 1 as [|r pre' ([name Hn] & url & Hu) _ IH]; [done |].
  cbn [app planned_requests fmap list_fmap]. rewrite Hn, Hu. simpl.
  unfold dict_get. rewrite Hu. simpl. by rewrite IH.
Qed.

(** Property X8.  A forwarder that was constructed but not started makes no
    request for any event, and [handle_event] still returns normally; once
    started, it makes the attempts of the fan-out with the session client
    (30 s timeout, 10 s to connect). *)
Theorem no_request_before_start {W : Type} `{!Env W} (c : config) (fw : forwarder)
    (event_type : string) (data : attrs) (w : W) :
  __init__ c = Return fw →
  Eff.result_of (handle_event fw event_type data w) = Return tt
  ∧ requests (Eff.trace_of (handle_event fw event_type data w)) = []
  ∧ requests (Eff.trace_of (handle_event (start fw) event_type data w))
    = planned_requests (Some (Client 30 10)) (matched_rules fw event_type data).
Proof.
  unfold __init__. destruct (negb (config_truthy c)); [discriminate |].
  intros [= <-].
  destruct (handle_event_run (Forwarder c None) event_type data w) as [Hres Hreq].
  destruct (handle_event_run (start (Forwarder c None)) event_type data w)
    as [_ Hreq'].
  repeat split; [done | | done].
  rewrite Hreq. apply planned_requests_no_session.
Qed.

Lemma no_request_before_start_witness :
  Eff.result_of
    (handle_event (Env0 := Sample.scripted_env)
       (Forwarder (Sample.config_of [Sample.rule_all]) None) "message"
       (BotManager._build_message_data Sample.hello) [])
  = Return tt
  ∧ requests
      (Eff.trace_of
         (handle_event (Env0 := Sample.scripted_env)
            (Forwarder (Sample.config_of [Sample.rule_all]) None) "message"
            (BotManager._build_message_data Sample.hello) []))
    = []
  ∧ requests
      (Eff.trace_of
         (handle_event (Env0 := Sample.scripted_env)
            (start (Forwarder (Sample.config_of [Sample.rule_all]) None)) "message"
            (BotManager._build_message_data Sample.hello) []))
    = planned_requests (Some (Client 30 10))
        (matched_rules (Forwarder (Sample.config_of [Sample.rule_all]) None)
           "message" (BotManager._build_message_data Sample.hello)).
Proof.
  apply (no_request_before_start (Sample.config_of [Sample.rule_all])).
  reflexivity.
Defined.

(** Property X9.  With a session, and a configuration whose rules all have
    a [name] and a textual [webhook_url], [handle_event] makes exactly one
    request per matched rule, to that rule's URL, in the order of the
    matched rules. *)
Theorem every_matched_rule_posted {W : Type} `{!Env W} (fw : forwarder)
    (c : client) (event_type : string) (data : attrs) (w : W) :
  session fw = Some c →
  Forall (λ r, is_Some (r !! "name") ∧ ∃ url, r !! "webhook_url" = Some (VStr url))
    (default [] (cfg_webhook_rules (fw_config fw))) →
  requests (Eff.trace_of (handle_event fw event_type data w))
  = (λ r, (c, str (dict_get r "webhook_url"))) <$> matched_rules fw event_type data.
Proof.
  intros Hs Hwf.
  destruct (handle_event_run fw event_type data w) as [_ ->]. rewrite Hs.
  apply planned_requests_all.
  apply Forall_forall. intros r Hr.
  rewrite Forall_forall in Hwf. apply Hwf.
  unfold matched_rules in Hr. apply elem_of_get_matching_rules in Hr. tauto.
Qed.

Lemma every_matched_rule_posted_witness :
  requests
    (Eff.trace_of
       (handle_event (Env0 := Sample.scripted_env)
          (Sample.forwarder_of [Sample.rule_all; Sample.rule_guild_42]) "message"
          (BotManager._build_message_data Sample.hello) [Raise TransportError]))
  = (λ r, (Client 30 10, str (dict_get r "webhook_url")))
      <$> matched_rules (Sample.forwarder_of [Sample.rule_all; Sample.rule_guild_42])
            "message" (BotManager._build_message_data Sample.hello).
Proof.
  apply (every_matched_rule_posted (Env0 := Sample.scripted_env)
           (Sample.forwarder_of [Sample.rule_all; Sample.rule_guild_42])
           (Client 30 10)).
  - reflexivity.
  - repeat (apply Forall_cons; split;
              [split; eexists; vm_compute; reflexivity |]).
    exact (List.Forall_nil _).
Defined.

(** Property X19.  A matched rule without [name] or without [webhook_url]
    ends the fan-out: the matched rules before it get their request, the
    rule itself and every matched rule after it get none, and
    [handle_event] still returns normally. *)
Theorem rule_without_url_ends_fan_out {W : Type} `{!Env W} (fw : forwarder)
    (c : client) (event_type : string) (data : attrs) (w : W)
    (pre post : list rule) (r : rule) :
  session fw = Some c →
  matched_rules fw event_type data = pre ++ r :: post →
  Forall (λ r, is_Some (r !! "name") ∧ ∃ url, r !! "webhook_url" = Some (VStr url))
    pre →
  r !! "name" = None ∨ r !! "webhook_url" = None →
  Eff.result_of (handle_event fw event_type data w) = Return tt
  ∧ requests (Eff.trace_of (handle_event fw event_type data w))
    = (λ r, (c, str (dict_get r "webhook_url"))) <$> pre.
Proof.
  intros Hs Hm Hpre Hr.
  destruct (handle_event_run fw event_type data w) as [Hres ->].
  split; [done |]. rewrite Hs, Hm, (planned_requests_app c pre _ Hpre).
  cbn [planned_requests].
  destruct Hr as [-> | Hu]; [by rewrite app_nil_r |].
  rewrite Hu. destruct (r !! "name"); by rewrite app_nil_r.
Qed.

Lemma rule_without_url_ends_fan_out_witness :
  Eff.result_of
    (handle_event (Env0 := Sample.scripted_env)
       (Sample.forwarder_of
          [Sample.rule_all; delete "webhook_url" Sample.rule_all;
           Sample.rule_guild_42])
       "message" (BotManager._build_message_data Sample.hello) [])
  = Return tt
  ∧ requests
      (Eff.trace_of
         (handle_event (Env0 := Sample.scripted_env)
            (Sample.forwarder_of
               [Sample.rule_all; delete "webhook_url" Sample.rule_all;
                Sample.rule_guild_42])
            "message" (BotManager._build_message_data Sample.hello) []))
    = (λ r, (Client 30 10, str (dict_get r "webhook_url"))) <$> [Sample.rule_all].
Proof.
  apply (rule_without_url_ends_fan_out (Env0 := Sample.scripted_env)
           (Sample.forwarder_of
              [Sample.rule_all; delete "webhook_url" Sample.rule_all;
               Sample.rule_guild_42])
           (Client 30 10) "message" (BotManager._build_message_data Sample.hello) []
           [Sample.rule_all] [Sample.rule_guild_42]
           (delete "webhook_url" Sample.rule_all)).
  - reflexivity.
  - vm_compute. reflexivity.
  - apply Forall_cons; split; [| exact (List.Forall_nil _)].
    split; eexists; vm_compute; reflexivity.
  - right. vm_compute. reflexivity.
Defined.

(** Property X10.  With a session and a textual URL, one call of
    [_forward_to_webhook_sync] makes exactly one POST, to that URL, with the
    payload stamped with the current time, and logs exactly one record after
    it: at level INFO when the status is 200 or 204, at level WARNING for
    any other status (201 and 202 included), at level ERROR when the request
    raises; in each case the call returns normally. *)
Theorem delivery_one_request_one_record {W : Type} `{!Env W} (fw : forwarder)
    (c : client) (url : string) (rule_name : value) (event_type : string)
    (data : attrs) (w : W) :
  session fw = Some c →
  let body := payload event_type rule_name (utc_now_iso w).1 data in
  let res := (http_post c url body (utc_now_iso w).2).1 in
  Eff.result_of (_forward_to_webhook_sync fw (VStr url) rule_name event_type data w)
  = Return tt
  ∧ Eff.trace_of (_forward_to_webhook_sync fw (VStr url) rule_name event_type data w)
    = [Post c url body res;
       match res with
       | Return status =>
           if bool_decide (status = 200%Z ∨ status = 204%Z)
           then Log INFO (MsgForwarded event_type rule_name)
           else Log WARNING (MsgStatus status rule_name)
       | Raise e => Log ERROR (MsgForwardError rule_name e)
       end].
Proof.
  intros Hs. rewrite (forward_run_text fw c) by done. cbv zeta.
  unfold Eff.trace_of, Eff.result_of. cbn [fst snd].
  split; [reflexivity |]. f_equal. f_equal.
  unfold outcome_record.
  destruct ((http_post c url _ _).1) as [status|e]; [| done].
  unfold delivery_success. case_bool_decide as Hd.
  - destruct Hd as [-> | ->]; done.
  - destruct (status =? 200)%Z eqn:H1; [apply Z.eqb_eq in H1; tauto |].
    destruct (status =? 204)%Z eqn:H2; [apply Z.eqb_eq in H2; tauto |]. done.
Qed.

Lemma delivery_one_request_one_record_witness :
  Eff.result_of
    (_forward_to_webhook_sync (Env0 := Sample.scripted_env) (Sample.forwarder_of [])
       (VStr "https://hooks.example/all") (VStr "all") "message" ∅ [Return 201%Z])
  = Return tt
  ∧ Eff.trace_of
      (_forward_to_webhook_sync (Env0 := Sample.scripted_env) (Sample.forwarder_of [])
         (VStr "https://hooks.example/all") (VStr "all") "message" ∅ [Return 201%Z])
    = [Post (Client 30 10) "https://hooks.example/all"
         (payload "message" (VStr "all") Sample.clock ∅) (Return 201%Z);
       Log WARNING (MsgStatus 201 (VStr "all"))].
Proof.
  apply (delivery_one_request_one_record (Env0 := Sample.scripted_env)
           (Sample.forwarder_of []) (Client 30 10) "https://hooks.example/all"
           (VStr "all") "message" ∅ [Return 201%Z]).
  reflexivity.
Defined.

End ForwarderFanOut.
